(** * simple-dns-server: wire codec, record store and response builder

    A shallow embedding of [internal/dns] (parser.go, encoder, records.go,
    server.go, types.go) of the simple DNS server, and the properties of
    its specification proved, or refuted, on that embedding.

    Conventions.
    - Go's [uint16], [uint32] and [int] are [Z]; every wrap-around the
      source can reach is written out ([mod 65536] on [ANCount++],
      truncation to the low byte in [byte(x)]).
    - [[]byte] is [list byte]; a Go [string] (a byte sequence) is a
      [string]; [string(b)] and [[]byte(s)] are the Standard Library's
      [string_of_list_byte] and [list_byte_of_string].
    - A Go function returning [(v, error)] returns an [outcome]; an index
      out of range is [Panic].
    - [parseDomainName] is a [for] loop without a condition that calls
      the function itself on a compression pointer; the embedding takes a
      step budget and answers [None] when the budget is used up before
      the Go function returns.
    - Calls of the logger and of [fmt.Printf] are output only and are
      left out, up to the arguments they evaluate. *)

From Stdlib Require Import ZArith List String Ascii Strings.Byte Lia.
From Stdlib Require Import Zbitwise ListDec.
From stdpp Require Import gmap strings.

Local Open Scope Z_scope.

(** ** Bytes and slices *)

(** [int(b)] / [uint16(b)] of a byte [b]. *)
Definition u8 (b : byte) : Z := Z.of_N (Byte.to_N b).

(** [byte(x)]: the low eight bits of an integer. *)
Definition to_byte (x : Z) : byte :=
  match Byte.of_N (Z.to_N (x mod 256)) with
  | Some b => b
  | None => x00
  end.

(** A byte slice literal [[]byte{192, 168, 1, 1}]. *)
Definition bytes (l : list Z) : list byte := map to_byte l.

(** [len(data)] as an [int]. *)
Definition len {A : Type} (data : list A) : Z := Z.of_nat (length data).

(** [data[i]]; [None] is Go's index-out-of-range panic. *)
Definition index (data : list byte) (i : Z) : option byte :=
  if i <? 0 then None else data !! Z.to_nat i.

(** [data[lo:hi]] for [0 <= lo <= hi <= len(data)]. *)
Definition slice (data : list byte) (lo hi : Z) : list byte :=
  take (Z.to_nat (hi - lo)) (drop (Z.to_nat lo) data).

(** ** The part of Go's [strings] package the server uses *)

Module Strings.

(** [strings.Split(s, sep)] for a separator of one byte (the server only
    splits on ["."]): the pieces between the separators, so that a string
    with [n] separators has [n + 1] pieces and [""] has the one piece [""]. *)
Fixpoint Split (s : string) (sep : ascii) : list string :=
  match s with
  | EmptyString => [EmptyString]
  | String c rest =>
      if Ascii.eqb c sep then EmptyString :: Split rest sep
      else match Split rest sep with
           | piece :: pieces => String c piece :: pieces
           | [] => [String c EmptyString]
           end
  end.

(** [strings.Join(elems, sep)]. *)
Fixpoint Join (elems : list string) (sep : string) : string :=
  match elems with
  | [] => EmptyString
  | [e] => e
  | e :: rest => e ++ sep ++ Join rest sep
  end.

Definition isUpper (c : ascii) : bool :=
  (65 <=? Z.of_N (N_of_ascii c)) && (Z.of_N (N_of_ascii c) <=? 90).

Definition isASCII (c : ascii) : bool := Z.of_N (N_of_ascii c) <? 128.

(** [c += 'a' - 'A'] on an upper-case ASCII letter, other bytes unchanged. *)
Definition lowerByte (c : ascii) : ascii :=
  if isUpper c then ascii_of_N (N_of_ascii c + 32) else c.

Fixpoint forallb_string (p : ascii -> bool) (s : string) : bool :=
  match s with
  | EmptyString => true
  | String c rest => p c && forallb_string p rest
  end.

Fixpoint existsb_string (p : ascii -> bool) (s : string) : bool :=
  match s with
  | EmptyString => false
  | String c rest => p c || existsb_string p rest
  end.

Fixpoint map_string (f : ascii -> ascii) (s : string) : string :=
  match s with
  | EmptyString => EmptyString
  | String c rest => String (f c) (map_string f rest)
  end.

Section ToLower.

(** [strings.Map(unicode.ToLower, s)], the path [strings.ToLower] takes on
    a string with a byte >= 0x80. It decodes UTF-8 and consults the Unicode
    case tables of Go's library; it stays a parameter. *)
Variable unicodeToLower : string -> string.

(** [strings.ToLower(s)]: an ASCII-only string is returned as it is when
    it has no upper-case letter and lowered byte by byte otherwise; any
    other string goes through the Unicode mapping. *)
Definition ToLower (s : string) : string :=
  let isASCII := forallb_string isASCII s in
  let hasUpper := existsb_string isUpper s in
  if isASCII then
    if negb hasUpper then s else map_string lowerByte s
  else unicodeToLower s.

End ToLower.

End Strings.

(** ** types.go *)

Definition TYPE_A : Z := 1.
Definition TYPE_NS : Z := 2.
Definition TYPE_CNAME : Z := 5.
Definition TYPE_AAAA : Z := 28.
Definition CLASS_IN : Z := 1.

Definition DNS_PORT : Z := 8053.
Definition MESSAGE_SIZE : Z := 512.
Definition MIN_MESSAGE_SIZE : Z := 12.
Definition DEFAULT_TTL : Z := 300.

Record DNSHeader := mkHeader {
  ID : Z;
  Flags : Z;
  QDCount : Z;
  ANCount : Z;
  NSCount : Z;
  ARCount : Z
}.

(** [Name], [Type] and [Class] are fields of both [DNSQuestion] and
    [DNSResourceRecord]; here they carry the record as a prefix. *)
Record DNSQuestion := mkQuestion {
  q_Name : string;
  q_Type : Z;
  q_Class : Z
}.

Record DNSResourceRecord := mkRR {
  rr_Name : string;
  rr_Type : Z;
  rr_Class : Z;
  rr_TTL : Z;
  rr_Data : list byte
}.

Record DNSMessage := mkMessage {
  Header : DNSHeader;
  Questions : list DNSQuestion;
  Answers : list DNSResourceRecord
}.

(** ** Results of the fallible functions *)

(** One constructor for each [fmt.Errorf] of parser.go. *)
Inductive error :=
| MessageTooShort (have need : Z)
    (* "message too short: %d bytes, minimum %d required" *)
| TruncatedQuestion
    (* "not enough data for question type and class" *)
| UnexpectedEnd
    (* "unexpected end of data" *)
| InvalidPointer
    (* "invalid compression pointer" *)
| LabelOverrun.
    (* "label extends beyond data" *)

Inductive outcome (A : Type) :=
| Ok (a : A)
| Err (e : error)
| Panic.

Arguments Ok {A} a.
Arguments Err {A} e.
Arguments Panic {A}.

(** ** parser.go *)

(** The two ways out of the label loop of [parseDomainName]: no label
    gives ["."], otherwise the labels joined with dots. *)
Definition finishName (labels : list string) (offset : Z) : outcome (string * Z) :=
  match labels with
  | [] => Ok ("."%string, offset)
  | _ => Ok (Strings.Join labels ".", offset)
  end.

(** [parseDomainName]: the loop [for { ... }] with [labels] and [offset]
    as its state. One unit of [fuel] pays for one iteration, and the
    recursive call on a compression pointer gets what is left. *)
Fixpoint parseDomainName_from (fuel : nat) (data : list byte)
    (labels : list string) (offset : Z) : option (outcome (string * Z)) :=
  match fuel with
  | O => None
  | S fuel' =>
      if len data <=? offset then Some (Err UnexpectedEnd)
      else
        match index data offset with
        | None => Some Panic
        | Some b =>
            let length := u8 b in
            if length =? 0 then Some (finishName labels (offset + 1))
            else if Z.land length 0xC0 =? 0xC0 then
              if len data <=? offset + 1 then Some (Err InvalidPointer)
              else
                match index data (offset + 1) with
                | None => Some Panic
                | Some b1 =>
                    let pointer := Z.lor (Z.shiftl (Z.land length 0x3F) 8) (u8 b1) in
                    match parseDomainName_from fuel' data [] pointer with
                    | None => None
                    | Some (Ok (name, _)) =>
                        Some (finishName (labels ++ Strings.Split name ".") (offset + 2))
                    | Some (Err e) => Some (Err e)
                    | Some Panic => Some Panic
                    end
                end
            else if len data <? offset + length + 1 then Some (Err LabelOverrun)
            else
              let label := string_of_list_byte (slice data (offset + 1) (offset + 1 + length)) in
              parseDomainName_from fuel' data (labels ++ [label]) (offset + length + 1)
        end
  end.

Definition parseDomainName (fuel : nat) (data : list byte) (offset : Z)
    : option (outcome (string * Z)) :=
  parseDomainName_from fuel data [] offset.

(** [uint16(data[i])<<8 | uint16(data[i+1])]. *)
Definition be16 (data : list byte) (i : Z) : option Z :=
  match index data i, index data (i + 1) with
  | Some hi, Some lo => Some (Z.lor (Z.shiftl (u8 hi) 8) (u8 lo))
  | _, _ => None
  end.

Definition parseQuestions (fuel : nat) (data : list byte) (offset : Z)
    : option (outcome (DNSQuestion * Z)) :=
  match parseDomainName fuel data offset with
  | None => None
  | Some (Err e) => Some (Err e)
  | Some Panic => Some Panic
  | Some (Ok (name, newOffset)) =>
      if len data <? newOffset + 4 then Some (Err TruncatedQuestion)
      else
        match be16 data newOffset, be16 data (newOffset + 2) with
        | Some ty, Some cl => Some (Ok (mkQuestion name ty cl, newOffset + 4))
        | _, _ => Some Panic
        end
  end.

(** The loop [for range int(msg.Header.QDCount)] of [ParseDNSMessage],
    [n] iterations to go. *)
Fixpoint parseQuestionList (fuel : nat) (n : nat) (data : list byte) (offset : Z)
    (acc : list DNSQuestion) : option (outcome (list DNSQuestion)) :=
  match n with
  | O => Some (Ok acc)
  | S n' =>
      match parseQuestions fuel data offset with
      | None => None
      | Some (Err e) => Some (Err e)
      | Some Panic => Some Panic
      | Some (Ok (question, newOffset)) =>
          parseQuestionList fuel n' data newOffset (acc ++ [question])
      end
  end.

(** [ParseDNSMessage]; the [fmt.Printf] of the header is output only. *)
Definition ParseDNSMessage (fuel : nat) (data : list byte)
    : option (outcome DNSMessage) :=
  if len data <? MIN_MESSAGE_SIZE then
    Some (Err (MessageTooShort (len data) MIN_MESSAGE_SIZE))
  else
    match be16 data 0, be16 data 2, be16 data 4, be16 data 6, be16 data 8, be16 data 10 with
    | Some id, Some fl, Some qd, Some an, Some ns, Some ar =>
        match parseQuestionList fuel (Z.to_nat qd) data 12 [] with
        | None => None
        | Some (Err e) => Some (Err e)
        | Some Panic => Some Panic
        | Some (Ok qs) => Some (Ok (mkMessage (mkHeader id fl qd an ns ar) qs []))
        end
    | _, _, _, _, _, _ => Some Panic
    end.

(** ** The encoder *)

(** The loop body of [EncodeDomainName]: a label over 63 bytes is skipped
    (the source logs a warning and [continue]s). *)
Definition encodeLabel (buffer : list byte) (label : string) : list byte :=
  if 63 <? Z.of_nat (String.length label) then buffer
  else (buffer ++ [to_byte (Z.of_nat (String.length label))]) ++ list_byte_of_string label.

Definition EncodeDomainName (name : string) : list byte :=
  if String.eqb name "" then [x00]
  else fold_left encodeLabel (Strings.Split name ".") [] ++ [x00].

(** [byte(x>>8), byte(x)]. *)
Definition put16 (x : Z) : list byte := [to_byte (Z.shiftr x 8); to_byte x].

(** [byte(x>>24), byte(x>>16), byte(x>>8), byte(x)]. *)
Definition put32 (x : Z) : list byte :=
  [to_byte (Z.shiftr x 24); to_byte (Z.shiftr x 16); to_byte (Z.shiftr x 8); to_byte x].

Definition encodeQuestion (buffer : list byte) (question : DNSQuestion) : list byte :=
  ((buffer ++ EncodeDomainName (q_Name question))
     ++ put16 (q_Type question)) ++ put16 (q_Class question).

Definition encodeAnswer (buffer : list byte) (answer : DNSResourceRecord) : list byte :=
  (((((buffer ++ EncodeDomainName (rr_Name answer))
        ++ put16 (rr_Type answer)) ++ put16 (rr_Class answer))
      ++ put32 (rr_TTL answer)) ++ put16 (len (rr_Data answer)))
    ++ rr_Data answer.

Definition encodeHeader (h : DNSHeader) : list byte :=
  put16 (ID h) ++ put16 (Flags h) ++ put16 (QDCount h)
    ++ put16 (ANCount h) ++ put16 (NSCount h) ++ put16 (ARCount h).

Definition EncodeDNSMessage (msg : DNSMessage) : list byte :=
  fold_left encodeAnswer (Answers msg)
    (fold_left encodeQuestion (Questions msg) (encodeHeader (Header msg))).

(** ** records.go *)

Record RecordStore := mkStore {
  records : gmap string (gmap Z (list byte))
}.

Definition NewRecordStore : RecordStore :=
  mkStore
    (<["www.example.com"%string := {[ TYPE_A := bytes [192; 168; 1; 1] ]}]>
    (<["example.com"%string := {[ TYPE_A := bytes [192; 168; 1; 1] ]}]>
    (<["test.com"%string := {[ TYPE_A := bytes [10; 0; 0; 1] ]}]>
    (<["localhost"%string := {[ TYPE_A := bytes [127; 0; 0; 1] ]}]>
    (<["google.com"%string := {[ TYPE_A := bytes [8; 8; 8; 8] ]}]> ∅))))).

(** [LookupRecord]: [Some data] for [(data, true)], [None] for [(nil, false)]. *)
Definition LookupRecord (rs : RecordStore) (domain : string) (recordType : Z)
    : option (list byte) :=
  match records rs !! domain with
  | Some domainRecords => domainRecords !! recordType
  | None => None
  end.

(** [AddRecord]: the inner map is made when the domain has none, then the
    entry is stored in the inner map found under [domain]. *)
Definition AddRecord (rs : RecordStore) (domain : string) (recordType : Z)
    (data : list byte) : RecordStore :=
  let made :=
    match records rs !! domain with
    | None => <[domain := ∅]> (records rs)
    | Some _ => records rs
    end in
  mkStore (<[domain := <[recordType := data]> (default ∅ (made !! domain))]> made).

(** [RemoveRecord]: the entry is deleted from the inner map, which the
    outer map keeps referring to, and the domain goes when the inner map
    is left empty. *)
Definition RemoveRecord (rs : RecordStore) (domain : string) (recordType : Z)
    : RecordStore :=
  match records rs !! domain with
  | Some domainRecords =>
      let domainRecords' := delete recordType domainRecords in
      if decide (size domainRecords' = 0%nat)
      then mkStore (delete domain (records rs))
      else mkStore (<[domain := domainRecords']> (records rs))
  | None => rs
  end.

(** ** server.go: the response builder *)

Section Server.

Variable unicodeToLower : string -> string.

(** The response [createDNSResponse] starts from. *)
Definition newResponse (query : DNSMessage) : DNSMessage :=
  mkMessage
    (mkHeader (ID (Header query)) 0x8180 (QDCount (Header query)) 0 0 0)
    (Questions query)
    [].

(** The body of the loop over [query.Questions], on the response built so
    far. The logging calls are left out, except that the "DNS record
    found" entry formats [ipData[0]] to [ipData[3]] and so panics on a
    record shorter than four bytes. [ANCount++] is on a [uint16]. *)
Definition answerQuestion (rs : RecordStore) (response : DNSMessage)
    (question : DNSQuestion) : outcome DNSMessage :=
  if (q_Type question =? TYPE_A) && (q_Class question =? CLASS_IN) then
    let domainName := Strings.ToLower unicodeToLower (q_Name question) in
    match LookupRecord rs domainName TYPE_A with
    | Some ipData =>
        let answer := mkRR (q_Name question) TYPE_A CLASS_IN DEFAULT_TTL ipData in
        let h := Header response in
        let response' :=
          mkMessage
            (mkHeader (ID h) (Flags h) (QDCount h) ((ANCount h + 1) mod 65536)
                      (NSCount h) (ARCount h))
            (Questions response)
            (Answers response ++ [answer]) in
        if len ipData <? 4 then Panic else Ok response'
    | None => Ok response
    end
  else Ok response.

Fixpoint answerQuestions (rs : RecordStore) (questions : list DNSQuestion)
    (response : DNSMessage) : outcome DNSMessage :=
  match questions with
  | [] => Ok response
  | question :: rest =>
      match answerQuestion rs response question with
      | Ok response' => answerQuestions rs rest response'
      | Err e => Err e
      | Panic => Panic
      end
  end.

(** [response.Header.Flags |= 0x0003] when [ANCount] is zero. *)
Definition setRcode (response : DNSMessage) : DNSMessage :=
  let h := Header response in
  if ANCount h =? 0 then
    mkMessage
      (mkHeader (ID h) (Z.lor (Flags h) 0x0003) (QDCount h) (ANCount h)
                (NSCount h) (ARCount h))
      (Questions response)
      (Answers response)
  else response.

Definition createDNSResponse (rs : RecordStore) (query : DNSMessage)
    : outcome DNSMessage :=
  match answerQuestions rs (Questions query) (newResponse query) with
  | Ok response => Ok (setRcode response)
  | Err e => Err e
  | Panic => Panic
  end.

End Server.

(** * Vocabulary of the specification *)

(** ** Names and messages the public builder makes *)

(** A label as the wire format takes it: 1 to 63 bytes. *)
Definition goodLabel (label : string) : Prop :=
  (1 <= String.length label <= 63)%nat.

(** A name all of whose dot-separated labels are wire labels. *)
Definition wellFormedName (name : string) : Prop :=
  Forall goodLabel (Strings.Split name ".").

Definition u16 (x : Z) : Prop := 0 <= x < 65536.

Definition wellFormedQuestion (question : DNSQuestion) : Prop :=
  wellFormedName (q_Name question) /\ u16 (q_Type question) /\ u16 (q_Class question).

Definition wellFormedHeader (h : DNSHeader) : Prop :=
  u16 (ID h) /\ u16 (Flags h) /\ u16 (QDCount h) /\ u16 (ANCount h)
  /\ u16 (NSCount h) /\ u16 (ARCount h).

(** A message whose 16-bit fields are 16-bit values, whose question count
    is the number of its questions and whose question names are made of
    wire labels. *)
Definition wellFormedMessage (msg : DNSMessage) : Prop :=
  wellFormedHeader (Header msg)
  /\ QDCount (Header msg) = len (Questions msg)
  /\ Forall wellFormedQuestion (Questions msg).

(** ** Name encoding, in the words of the specification *)

Definition shortLabel (label : string) : bool :=
  Z.of_nat (String.length label) <=? 63.

(** A length byte followed by the label bytes in order. *)
Definition wireLabel (label : string) : list byte :=
  to_byte (Z.of_nat (String.length label)) :: list_byte_of_string label.

(** Split on ["."], keep the labels of at most 63 bytes, emit each as a
    wire label, append the zero byte; the empty name is the single byte 0. *)
Definition encodeDomainName_spec (name : string) : list byte :=
  if String.eqb name "" then [x00]
  else concat (map wireLabel (List.filter shortLabel (Strings.Split name "."))) ++ [x00].

(** The bytes of one question: its name, type and class. *)
Definition wireQuestion (question : DNSQuestion) : list byte :=
  EncodeDomainName (q_Name question)
    ++ put16 (q_Type question) ++ put16 (q_Class question).

(** The largest number of labels in a question name of the message. *)
Definition labelCount (msg : DNSMessage) : nat :=
  list_max (map (fun q => length (Strings.Split (q_Name q) ".")) (Questions msg)).

(** The response of the encoder's unit test: one question, one answer. *)
Definition responseTest : DNSMessage :=
  mkMessage (mkHeader 0x1234 0x8180 1 1 0 0)
            [mkQuestion "test.com" 1 1]
            [mkRR "test.com" 1 1 300 (bytes [10; 0; 0; 1])].

(** ** Pointer chains *)

(** [hop data o t]: the label loop of [parseDomainName] started at offset
    [o] passes zero or more labels and reaches a compression pointer whose
    target is [t], where it calls itself. *)
Inductive hop (data : list byte) : Z -> Z -> Prop :=
| hop_pointer (o : Z) (b b1 : byte) :
    index data o = Some b ->
    Z.land (u8 b) 0xC0 = 0xC0 ->
    index data (o + 1) = Some b1 ->
    hop data o (Z.lor (Z.shiftl (Z.land (u8 b) 0x3F) 8) (u8 b1))
| hop_label (o : Z) (b : byte) (t : Z) :
    index data o = Some b ->
    u8 b <> 0 ->
    Z.land (u8 b) 0xC0 <> 0xC0 ->
    o + u8 b + 1 <= len data ->
    hop data (o + u8 b + 1) t ->
    hop data o t.

(** Resolution from [offset] comes back to an offset it has started from
    before: some offset reached by following pointers lies on a cycle. *)
Definition revisits (data : list byte) (offset : Z) : Prop :=
  exists t, rtc (hop data) offset t /\ tc (hop data) t t.

(** The Go call returns: with budget enough, a name or an error. *)
Definition returns (data : list byte) (labels : list string) (offset : Z) : Prop :=
  exists fuel r,
    parseDomainName_from fuel data labels offset = Some r /\ r <> Panic.

(** A buffer with a compressed name: [com] at offset 0, and at offset 5
    the label [www] followed by a pointer to offset 0. *)
Definition compressed : list byte :=
  bytes [3; 99; 111; 109; 0; 3; 119; 119; 119; 0xC0; 0x00].

(** No byte of the buffer has the two top bits set: the buffer has no
    compression pointer, wherever a name is read from. *)
Definition pointerFree (data : list byte) : bool :=
  forallb (fun b => negb (Z.land (u8 b) 0xC0 =? 0xC0)) data.

(** A query of eighteen bytes: a header that announces one question, and
    for the question's name a pointer to offset 12, its own offset,
    followed by type A and class IN. *)
Definition selfPointerQuery : list byte :=
  bytes [0x12; 0x34; 0x01; 0x00; 0x00; 0x01; 0x00; 0x00; 0x00; 0x00; 0x00; 0x00;
         0xC0; 0x0C; 0x00; 0x01; 0x00; 0x01].

(** ** The response builder *)

(** A question the builder does not resolve: not type A, or not class IN. *)
Definition unsupported (question : DNSQuestion) : Prop :=
  q_Type question <> TYPE_A \/ q_Class question <> CLASS_IN.

(** The string has an upper-case ASCII letter. *)
Definition hasUpper (s : string) : bool :=
  Strings.existsb_string Strings.isUpper s.

(** Every address record of the table holds at least the four bytes of
    an address. *)
Definition holdsAddresses (rs : RecordStore) : Prop :=
  forall domain data, LookupRecord rs domain TYPE_A = Some data -> 4 <= len data.

(** A stand-in for the Unicode path where a property is tried on an
    example: it lowers the ASCII letters and keeps every other byte. *)
Definition lowerBytes (s : string) : string :=
  Strings.map_string Strings.lowerByte s.

(** The query of scenario A. *)
Definition queryA : DNSMessage :=
  mkMessage (mkHeader 0x1234 0x0100 1 0 0 0)
            [mkQuestion "www.example.com" 1 1] [].

(** Case analysis of [hop] at a known offset of a known buffer. *)
Ltac hop_cases H :=
  inversion H; subst; clear H;
  repeat match goal with
         | Hi : index _ _ = Some _ |- _ =>
             vm_compute in Hi; first [discriminate Hi | injection Hi as ?; subst]
         end;
  try match goal with
      | Hl : Z.land _ _ = _ |- _ => vm_compute in Hl; discriminate Hl
      end;
  try match goal with
      | Hl : Z.land _ _ <> _ |- _ => exfalso; apply Hl; reflexivity
      end;
  try match goal with
      | Hl : u8 _ <> 0 |- _ => exfalso; apply Hl; reflexivity
      end.

(** * The rest of the server, and the load balancer *)

(** ** server.go: one datagram *)

Section Handler.

Variable unicodeToLower : string -> string.

(** [handleDNSQuery] on the table [rs] of the server: [Ok (Some bytes)]
    when [bytes] is written back to the client with [WriteToUDP],
    [Ok None] when the function returns without writing. The socket and
    the result of the write are outside the embedding. *)
Definition handleDNSQuery (fuel : nat) (rs : RecordStore) (data : list byte)
    : option (outcome (option (list byte))) :=
  if len data <? MIN_MESSAGE_SIZE then Some (Ok None)
  else
    match ParseDNSMessage fuel data with
    | None => None
    | Some (Err _) => Some (Ok None)
    | Some Panic => Some Panic
    | Some (Ok msg) =>
        match createDNSResponse unicodeToLower rs msg with
        | Ok response => Some (Ok (Some (EncodeDNSMessage response)))
        | Err _ => Some (Ok None)
        | Panic => Some Panic
        end
    end.

End Handler.

(** The answers one question contributes to a response. *)
Definition answersFor (unicodeToLower : string -> string) (rs : RecordStore)
    (question : DNSQuestion) : list DNSResourceRecord :=
  if (q_Type question =? TYPE_A) && (q_Class question =? CLASS_IN) then
    match LookupRecord rs (Strings.ToLower unicodeToLower (q_Name question)) TYPE_A with
    | Some ipData => [mkRR (q_Name question) TYPE_A CLASS_IN DEFAULT_TTL ipData]
    | None => []
    end
  else [].

(** No domain of the table is left with an empty map of records. *)
Definition noEmptyDomain (rs : RecordStore) : Prop :=
  forall domain domainRecords,
    records rs !! domain = Some domainRecords -> domainRecords <> ∅.

(** The two bytes of a compression pointer to offset [p], as a client
    writes them (the encoder of the server writes none). *)
Definition pointerTo (p : Z) : list byte :=
  [to_byte (Z.lor 0xC0 (Z.shiftr p 8)); to_byte p].

(** ** http-load-balancer *)

Module LB.

(** A backend: its URL and the [Alive] flag. The mutex guards the flag
    and the reverse proxy is the library's; neither is state of the
    selection. *)
Record Backend := mkBackend {
  URL : string;
  Alive : bool
}.

Record LoadBalancer := mkLB {
  backends : list Backend;
  current : Z
}.

Definition AddBackend (lb : LoadBalancer) (backend : Backend) : LoadBalancer :=
  mkLB (backends lb ++ [backend]) (current lb).

(** [b.SetAlive(alive)] on the backend at [idx] of the list. *)
Definition SetAlive (lb : LoadBalancer) (idx : nat) (alive : bool) : LoadBalancer :=
  match backends lb !! idx with
  | Some b => mkLB (<[idx := mkBackend (URL b) alive]> (backends lb)) (current lb)
  | None => lb
  end.

(** [NextIndex]: [atomic.AddUint64(&lb.current, 1) % uint64(len(lb.backends))];
    the counter is a [uint64], and the remainder by zero panics. *)
Definition NextIndex (lb : LoadBalancer) : outcome (Z * LoadBalancer) :=
  let c := (current lb + 1) mod 2 ^ 64 in
  if len (backends lb) =? 0 then Panic
  else Ok (c mod len (backends lb), mkLB (backends lb) c).

(** The loop [for i := next; i < l; i++] of [GetNextPeer], [n] iterations
    to go; the backend returned is named by its index in the list. *)
Fixpoint scanPeers (lb : LoadBalancer) (next i : Z) (n : nat)
    : outcome (option Z * LoadBalancer) :=
  match n with
  | O => Ok (None, lb)
  | S n' =>
      let idx := i mod len (backends lb) in
      match backends lb !! Z.to_nat idx with
      | None => Panic
      | Some b =>
          if Alive b then
            Ok (Some idx,
                if i =? next then lb else mkLB (backends lb) idx)
          else scanPeers lb next (i + 1) n'
      end
  end.

Definition GetNextPeer (lb : LoadBalancer) : outcome (option Z * LoadBalancer) :=
  match NextIndex lb with
  | Ok (next, lb') => scanPeers lb' next next (length (backends lb'))
  | Err e => Err e
  | Panic => Panic
  end.

(** What [ServeHTTP] does with a request. *)
Inductive served :=
| Proxied (idx : Z)          (* peer.ReverseProxy.ServeHTTP(w, r) *)
| Unavailable.               (* http.Error(w, ..., 503) *)

(** [ServeHTTP]: the proxy is called in the branch [peer == nil], where
    [peer.ReverseProxy] is a nil dereference. *)
Definition ServeHTTP (lb : LoadBalancer) : outcome (served * LoadBalancer) :=
  match GetNextPeer lb with
  | Ok (None, lb') => Panic
  | Ok (Some _, lb') => Ok (Unavailable, lb')
  | Err e => Err e
  | Panic => Panic
  end.

(** [k] calls of [GetNextPeer] in a row, and the peers they return. *)
Fixpoint nextPeers (k : nat) (lb : LoadBalancer) : outcome (list (option Z) * LoadBalancer) :=
  match k with
  | O => Ok ([], lb)
  | S k' =>
      match GetNextPeer lb with
      | Ok (peer, lb') =>
          match nextPeers k' lb' with
          | Ok (peers, lb'') => Ok (peer :: peers, lb'')
          | Err e => Err e
          | Panic => Panic
          end
      | Err e => Err e
      | Panic => Panic
      end
  end.

(** [lb.backends[idx].IsAlive()], false outside the list. *)
Definition aliveAt (lb : LoadBalancer) (idx : Z) : bool :=
  match backends lb !! Z.to_nat idx with
  | Some b => Alive b
  | None => false
  end.

End LB.

(** * Properties *)

(** ** Bytes, big-endian fields and slices *)

Lemma u8_range (b : byte) : 0 <= u8 b < 256.
Proof.
  unfold u8. pose proof (Byte.to_N_bounded b). lia.
Qed.

Lemma u8_to_byte (x : Z) : u8 (to_byte x) = x mod 256.
Proof.
  unfold u8, to_byte.
  assert (Hm : 0 <= x mod 256 < 256) by (apply Z.mod_pos_bound; lia).
  destruct (Byte.of_N (Z.to_N (x mod 256))) as [b|] eqn:E.
  - apply Byte.to_of_N in E. rewrite E. lia.
  - apply Byte.of_N_None_iff in E. lia.
Qed.

Lemma len_app {A} (l k : list A) : len (l ++ k) = len l + len k.
Proof. unfold len. rewrite length_app. lia. Qed.

Lemma len_nonneg {A} (l : list A) : 0 <= len l.
Proof. unfold len. lia. Qed.

Lemma len_cons {A} (a : A) (l : list A) : len (a :: l) = 1 + len l.
Proof. unfold len. cbn [length]. lia. Qed.

Lemma index_app_r (pre post : list byte) (i : Z) :
  0 <= i -> index (pre ++ post) (len pre + i) = index post i.
Proof.
  intros Hi. unfold index, len.
  destruct (Z.ltb_spec (Z.of_nat (length pre) + i) 0); [lia|].
  destruct (Z.ltb_spec i 0); [lia|].
  rewrite lookup_app_r by lia. f_equal. lia.
Qed.

Lemma index_in_range (data : list byte) (i : Z) :
  0 <= i < len data -> exists b, index data i = Some b.
Proof.
  intros [H0 H1]. unfold index, len in *.
  destruct (Z.ltb_spec i 0); [lia|].
  destruct (data !! Z.to_nat i) as [b|] eqn:E; [eauto|].
  apply lookup_ge_None in E. lia.
Qed.

Lemma index_Some_range (data : list byte) (i : Z) (b : byte) :
  index data i = Some b -> 0 <= i < len data.
Proof.
  unfold index, len. destruct (Z.ltb_spec i 0); [discriminate|].
  intros E. apply lookup_lt_Some in E. lia.
Qed.

Lemma slice_app (pre mid post : list byte) :
  slice (pre ++ mid ++ post) (len pre) (len pre + len mid) = mid.
Proof.
  unfold slice, len.
  replace (Z.to_nat (Z.of_nat (length pre) + Z.of_nat (length mid) - Z.of_nat (length pre)))
    with (length mid) by lia.
  rewrite Nat2Z.id, drop_app_length. apply take_app_length.
Qed.

(** Two bytes written by [put16] read back as the 16-bit value. *)
Lemma lor_shiftl_put16 (x : Z) :
  0 <= x < 65536 ->
  Z.lor (Z.shiftl (Z.shiftr x 8 mod 256) 8) (x mod 256) = x.
Proof.
  intros Hx.
  change 256 with (2 ^ 8). rewrite <- !Z.land_ones by lia.
  apply Z.bits_inj'. intros n Hn.
  rewrite Z.lor_spec, Z.land_spec, Z.shiftl_spec by lia.
  destruct (Z.ltb_spec n 8).
  - rewrite (Z.testbit_neg_r _ (n - 8)) by lia.
    rewrite Z.ones_spec_low by lia. cbn. now rewrite andb_true_r.
  - rewrite Z.land_spec, Z.shiftr_spec by lia. replace (n - 8 + 8) with n by lia.
    rewrite (Z.ones_spec_high 8 n) by lia. rewrite andb_false_r, orb_false_r.
    destruct (Z.ltb_spec n 16).
    + rewrite Z.ones_spec_low by lia. now rewrite andb_true_r.
    + rewrite andb_comm. cbn.
      rewrite <- (Z.mod_small x (2 ^ 16)) by (change (2 ^ 16) with 65536; lia).
      rewrite Z.mod_pow2_bits_high by lia. now destruct (Z.testbit (Z.ones 8) (n - 8)).
Qed.

Lemma be16_put16 (pre post : list byte) (x : Z) :
  0 <= x < 65536 ->
  be16 (pre ++ put16 x ++ post) (len pre) = Some x.
Proof.
  intros Hx. unfold be16, put16.
  replace (len pre) with (len pre + 0) at 1 by lia.
  rewrite !index_app_r by lia. cbn [app].
  change (index (?a :: ?b :: post) 0) with (Some a).
  change (index (?a :: ?b :: post) 1) with (Some b).
  cbv beta iota. rewrite !u8_to_byte. f_equal. now apply lor_shiftl_put16.
Qed.

Lemma len_put16 (x : Z) : len (put16 x) = 2.
Proof. reflexivity. Qed.

(** ** [strings.Split] and [strings.Join] *)

Lemma Split_nonempty (s : string) (sep : ascii) : Strings.Split s sep <> [].
Proof.
  destruct s as [|c rest]; cbn; [discriminate|].
  destruct (Ascii.eqb c sep); [discriminate|].
  destruct (Strings.Split rest sep); discriminate.
Qed.

Lemma Join_cons_cons (e e' : string) (rest : list string) (sep : string) :
  Strings.Join (e :: e' :: rest) sep = (e ++ sep ++ Strings.Join (e' :: rest) sep)%string.
Proof. reflexivity. Qed.

Lemma Join_Split (s : string) : Strings.Join (Strings.Split s ".") "." = s.
Proof.
  induction s as [|c rest IH]; [reflexivity|].
  cbn [Strings.Split].
  destruct (Ascii.eqb_spec c ".") as [->|Hc].
  - destruct (Strings.Split rest ".") as [|p ps] eqn:E.
    + now apply Split_nonempty in E.
    + rewrite Join_cons_cons, IH. reflexivity.
  - destruct (Strings.Split rest ".") as [|p ps] eqn:E.
    + now apply Split_nonempty in E.
    + destruct ps as [|p' ps].
      * cbn in *. now rewrite IH.
      * rewrite <- IH, !Join_cons_cons. reflexivity.
Qed.

Lemma length_list_byte_of_string (s : string) :
  length (list_byte_of_string s) = String.length s.
Proof.
  unfold list_byte_of_string. rewrite length_map.
  induction s; cbn; congruence.
Qed.

Lemma len_list_byte_of_string (s : string) :
  len (list_byte_of_string s) = Z.of_nat (String.length s).
Proof. unfold len. now rewrite length_list_byte_of_string. Qed.

(** ** The encoder, label by label *)

Lemma encodeLabel_wire (buffer : list byte) (label : string) :
  encodeLabel buffer label =
  buffer ++ (if shortLabel label then wireLabel label else []).
Proof.
  unfold encodeLabel, shortLabel, wireLabel.
  destruct (Z.ltb_spec 63 (Z.of_nat (String.length label)));
    destruct (Z.leb_spec (Z.of_nat (String.length label)) 63); try lia.
  - now rewrite app_nil_r.
  - now rewrite <- app_assoc.
Qed.

Lemma fold_encodeLabel (labels : list string) (buffer : list byte) :
  fold_left encodeLabel labels buffer =
  buffer ++ concat (map wireLabel (List.filter shortLabel labels)).
Proof.
  revert buffer. induction labels as [|l ls IH]; intros buffer; cbn.
  - now rewrite app_nil_r.
  - rewrite IH, encodeLabel_wire.
    destruct (shortLabel l); cbn; now rewrite <- app_assoc.
Qed.

(** C7. [EncodeDomainName] is the encoding the specification words: the
    name is split on dots, every label of at most 63 bytes is emitted as
    its length byte and its bytes, in order, every longer label is left
    out whole, a zero byte ends the result, and the empty name gives the
    single byte 0. *)
Theorem EncodeDomainName_drops_only_long_labels (name : string) :
  EncodeDomainName name = encodeDomainName_spec name
  /\ (exists body, EncodeDomainName name = body ++ [x00])
  /\ EncodeDomainName "" = [x00].
Proof.
  assert (E : EncodeDomainName name = encodeDomainName_spec name).
  { unfold EncodeDomainName, encodeDomainName_spec.
    destruct (String.eqb name ""); [reflexivity|].
    now rewrite fold_encodeLabel. }
  split; [exact E|]. split; [|reflexivity].
  rewrite E. unfold encodeDomainName_spec.
  destruct (String.eqb name ""); [now exists []|eauto].
Qed.

(** ** One iteration of the label loop, case by case *)

Section LabelLoop.

Variables (fuel : nat) (data : list byte) (labels : list string) (offset : Z).

Lemma parseDomainName_from_end :
  len data <= offset ->
  parseDomainName_from (S fuel) data labels offset = Some (Err UnexpectedEnd).
Proof.
  intros H. cbn [parseDomainName_from].
  destruct (Z.leb_spec (len data) offset); [reflexivity | lia].
Qed.

Lemma parseDomainName_from_negative :
  offset < 0 ->
  parseDomainName_from (S fuel) data labels offset = Some Panic.
Proof.
  intros H. cbn [parseDomainName_from]. pose proof (len_nonneg data).
  destruct (Z.leb_spec (len data) offset); [lia|].
  unfold index. destruct (Z.ltb_spec offset 0); [reflexivity | lia].
Qed.

Variable b : byte.
Hypothesis Hb : index data offset = Some b.

Lemma parseDomainName_from_zero :
  u8 b = 0 ->
  parseDomainName_from (S fuel) data labels offset
  = Some (finishName labels (offset + 1)).
Proof using Hb.
  intros H. cbn [parseDomainName_from]. apply index_Some_range in Hb as Hr.
  destruct (Z.leb_spec (len data) offset); [lia|].
  rewrite Hb. cbv zeta. now rewrite H.
Qed.

Lemma parseDomainName_from_pointer_cut :
  Z.land (u8 b) 0xC0 = 0xC0 ->
  len data <= offset + 1 ->
  parseDomainName_from (S fuel) data labels offset = Some (Err InvalidPointer).
Proof using Hb.
  intros H Hl. cbn [parseDomainName_from]. apply index_Some_range in Hb as Hr.
  destruct (Z.leb_spec (len data) offset); [lia|].
  rewrite Hb. cbv zeta.
  destruct (Z.eqb_spec (u8 b) 0) as [E|_]; [rewrite E in H; discriminate|].
  rewrite H, Z.eqb_refl.
  destruct (Z.leb_spec (len data) (offset + 1)); [reflexivity | lia].
Qed.

Lemma parseDomainName_from_pointer (b1 : byte) :
  Z.land (u8 b) 0xC0 = 0xC0 ->
  index data (offset + 1) = Some b1 ->
  parseDomainName_from (S fuel) data labels offset
  = match parseDomainName_from fuel data []
            (Z.lor (Z.shiftl (Z.land (u8 b) 0x3F) 8) (u8 b1)) with
    | None => None
    | Some (Ok (name, _)) =>
        Some (finishName (labels ++ Strings.Split name ".") (offset + 2))
    | Some (Err e) => Some (Err e)
    | Some Panic => Some Panic
    end.
Proof using Hb.
  intros H Hb1. cbn [parseDomainName_from].
  apply index_Some_range in Hb as Hr. apply index_Some_range in Hb1 as Hr1.
  destruct (Z.leb_spec (len data) offset); [lia|].
  rewrite Hb. cbv zeta.
  destruct (Z.eqb_spec (u8 b) 0) as [E|_]; [rewrite E in H; discriminate|].
  rewrite H, Z.eqb_refl.
  destruct (Z.leb_spec (len data) (offset + 1)); [lia|].
  now rewrite Hb1.
Qed.

Lemma parseDomainName_from_overrun :
  u8 b <> 0 ->
  Z.land (u8 b) 0xC0 <> 0xC0 ->
  len data < offset + u8 b + 1 ->
  parseDomainName_from (S fuel) data labels offset = Some (Err LabelOverrun).
Proof using Hb.
  intros H0 Hp Hl. cbn [parseDomainName_from]. apply index_Some_range in Hb as Hr.
  destruct (Z.leb_spec (len data) offset); [lia|].
  rewrite Hb. cbv zeta.
  destruct (Z.eqb_spec (u8 b) 0); [contradiction|].
  destruct (Z.eqb_spec (Z.land (u8 b) 192) 192); [contradiction|].
  destruct (Z.ltb_spec (len data) (offset + u8 b + 1)); [reflexivity | lia].
Qed.

Lemma parseDomainName_from_label :
  u8 b <> 0 ->
  Z.land (u8 b) 0xC0 <> 0xC0 ->
  offset + u8 b + 1 <= len data ->
  parseDomainName_from (S fuel) data labels offset
  = parseDomainName_from fuel data
      (labels ++ [string_of_list_byte (slice data (offset + 1) (offset + 1 + u8 b))])
      (offset + u8 b + 1).
Proof using Hb.
  intros H0 Hp Hl. cbn [parseDomainName_from]. apply index_Some_range in Hb as Hr.
  destruct (Z.leb_spec (len data) offset); [lia|].
  rewrite Hb. cbv zeta.
  destruct (Z.eqb_spec (u8 b) 0); [contradiction|].
  destruct (Z.eqb_spec (Z.land (u8 b) 192) 192); [contradiction|].
  destruct (Z.ltb_spec (len data) (offset + u8 b + 1)); [lia | reflexivity].
Qed.

End LabelLoop.

(** A byte below 64 is a label length, never a pointer. *)
Lemma small_not_pointer (b : byte) : u8 b < 64 -> Z.land (u8 b) 0xC0 <> 0xC0.
Proof.
  intros H E. destruct b; vm_compute in E; try discriminate E; vm_compute in H; discriminate H.
Qed.

(** ** Decoding what the encoder wrote *)

Lemma wireLabel_length_byte (label : string) :
  goodLabel label ->
  u8 (to_byte (Z.of_nat (String.length label))) = Z.of_nat (String.length label).
Proof.
  intros [H1 H2]. rewrite u8_to_byte. apply Z.mod_small. lia.
Qed.

Lemma len_wireLabel (label : string) :
  len (wireLabel label) = 1 + Z.of_nat (String.length label).
Proof.
  unfold wireLabel. now rewrite len_cons, len_list_byte_of_string.
Qed.

(** The loop reads back a run of wire labels up to the zero byte behind
    them, whatever surrounds the run. *)
Lemma parseDomainName_from_wire (ls : list string) :
  forall (pre post : list byte) (acc : list string) (fuel : nat),
    Forall goodLabel ls ->
    (length ls < fuel)%nat ->
    parseDomainName_from fuel (pre ++ concat (map wireLabel ls) ++ x00 :: post)
      acc (len pre)
    = Some (finishName (acc ++ ls)
              (len pre + len (concat (map wireLabel ls)) + 1)).
Proof.
  induction ls as [|l ls IH]; intros pre post acc fuel Hls Hfuel.
  - destruct fuel as [|fuel]; [cbn in Hfuel; lia|].
    cbn [map concat app]. rewrite app_nil_r.
    rewrite parseDomainName_from_zero with (b := x00).
    + repeat f_equal. change (len []) with 0. lia.
    + replace (len pre) with (len pre + 0) by lia.
      now rewrite index_app_r by lia.
    + reflexivity.
  - destruct fuel as [|fuel]; [cbn in Hfuel; lia|].
    inversion Hls as [|? ? Hl Hls']; subst.
    set (lb := to_byte (Z.of_nat (String.length l))).
    assert (Hu : u8 lb = Z.of_nat (String.length l)) by now apply wireLabel_length_byte.
    destruct Hl as [Hl1 Hl2].
    cbn [map concat]. unfold wireLabel at 1. fold lb.
    set (rest := concat (map wireLabel ls) ++ x00 :: post).
    assert (Hdata : pre ++ ((lb :: list_byte_of_string l) ++ concat (map wireLabel ls)) ++ x00 :: post
                    = pre ++ lb :: list_byte_of_string l ++ rest).
    { subst rest. now rewrite <- !app_assoc. }
    rewrite Hdata.
    assert (Hidx : index (pre ++ lb :: list_byte_of_string l ++ rest) (len pre) = Some lb).
    { replace (len pre) with (len pre + 0) by lia. now rewrite index_app_r by lia. }
    rewrite parseDomainName_from_label with (b := lb); try assumption.
    + rewrite Hu.
      replace (pre ++ lb :: list_byte_of_string l ++ rest)
        with ((pre ++ [lb]) ++ list_byte_of_string l ++ rest)
        by now rewrite <- app_assoc.
      replace (len pre + 1) with (len (pre ++ [lb])) by (rewrite len_app; reflexivity).
      rewrite <- (len_list_byte_of_string l).
      rewrite slice_app, string_of_list_byte_of_string.
      replace (len pre + len (list_byte_of_string l) + 1)
        with (len (pre ++ lb :: list_byte_of_string l))
        by (rewrite len_app, len_cons; lia).
      replace ((pre ++ [lb]) ++ list_byte_of_string l ++ rest)
        with ((pre ++ lb :: list_byte_of_string l) ++ rest)
        by (rewrite <- !app_assoc; reflexivity).
      subst rest. rewrite IH by (try assumption; cbn in Hfuel; lia).
      rewrite <- app_assoc. cbn [app]. do 2 f_equal.
      rewrite !len_app, len_cons, len_wireLabel, len_list_byte_of_string. lia.
    + lia.
    + apply small_not_pointer. lia.
    + rewrite Hu, len_app, len_cons, len_app, len_list_byte_of_string.
      pose proof (len_nonneg rest). lia.
Qed.

Lemma finishName_Ok (labels : list string) (offset : Z) :
  exists name, finishName labels offset = Ok (name, offset).
Proof. destruct labels; cbn; eauto. Qed.

(** Up to its first empty label, the kept labels of a name are wire
    labels, and the empty label is written as a zero byte. *)
Lemma first_empty_label (ls : list string) :
  In ""%string ls ->
  exists kept rest,
    Forall goodLabel kept
    /\ concat (map wireLabel (List.filter shortLabel ls))
       = concat (map wireLabel kept) ++ x00 :: rest.
Proof.
  induction ls as [|l ls IH]; intros Hin; [destruct Hin|].
  destruct (String.eqb_spec l "") as [->|Hne].
  - exists [], (concat (map wireLabel (List.filter shortLabel ls))).
    split; [constructor | reflexivity].
  - destruct Hin as [E|Hin]; [congruence|].
    destruct (IH Hin) as (kept & rest & Hk & E).
    cbn [List.filter]. destruct (shortLabel l) eqn:Hs.
    + exists (l :: kept), rest. split.
      * constructor; [|assumption]. unfold shortLabel in Hs.
        apply Z.leb_le in Hs. unfold goodLabel.
        destruct l; [congruence|]. cbn [String.length] in *. lia.
      * cbn [map concat]. rewrite E. now rewrite <- app_assoc.
    + exists kept, rest. split; assumption.
Qed.

(** C10. The root name does not survive decode-then-encode: the wire
    byte 0 decodes to ["."], and ["."] encodes to three zero bytes, not to
    the byte it came from; and a name with an empty label is encoded with
    a zero length byte before its end, at which the decoder stops, short
    of the bytes written. *)
Theorem root_name_encoding_asymmetry :
  parseDomainName 1 [x00] 0 = Some (Ok ("."%string, 1))
  /\ EncodeDomainName "." = [x00; x00; x00]
  /\ EncodeDomainName "." <> [x00]
  /\ forall name : string,
       name <> ""%string ->
       In ""%string (Strings.Split name ".") ->
       exists fuel decoded newOffset,
         parseDomainName fuel (EncodeDomainName name) 0 = Some (Ok (decoded, newOffset))
         /\ index (EncodeDomainName name) (newOffset - 1) = Some x00
         /\ newOffset < len (EncodeDomainName name).
Proof.
  split; [reflexivity|]. split; [reflexivity|]. split; [discriminate|].
  intros name Hne Hin.
  destruct (first_empty_label _ Hin) as (kept & rest & Hk & E).
  assert (Henc : EncodeDomainName name
                 = [] ++ concat (map wireLabel kept) ++ x00 :: (rest ++ [x00])).
  { unfold EncodeDomainName. destruct (String.eqb_spec name ""); [contradiction|].
    rewrite fold_encodeLabel. cbn [app]. rewrite E. now rewrite <- app_assoc. }
  destruct (finishName_Ok ([] ++ kept)
              (len (@nil byte) + len (concat (map wireLabel kept)) + 1))
    as [decoded Hd].
  exists (S (length kept)), decoded,
    (len (@nil byte) + len (concat (map wireLabel kept)) + 1).
  rewrite Henc. unfold parseDomainName. split; [|split].
  - change 0 with (len (@nil byte)) at 1.
    rewrite parseDomainName_from_wire by (try assumption; lia).
    now rewrite Hd.
  - cbn [app]. change (len []) with 0.
    replace (0 + len (concat (map wireLabel kept)) + 1 - 1)
      with (len (concat (map wireLabel kept)) + 0) by lia.
    now rewrite index_app_r by lia.
  - cbn [app]. change (len []) with 0.
    rewrite len_app, len_cons, len_app. pose proof (len_nonneg rest).
    change (len [x00]) with 1. lia.
Qed.

(** The decoder does stop early on ["a..b"]: it returns after 3 of the
    6 bytes written. *)
Lemma root_name_encoding_asymmetry_witness :
  exists fuel decoded newOffset,
    parseDomainName fuel (EncodeDomainName "a..b") 0 = Some (Ok (decoded, newOffset))
    /\ index (EncodeDomainName "a..b") (newOffset - 1) = Some x00
    /\ newOffset < len (EncodeDomainName "a..b").
Proof.
  apply (proj2 (proj2 (proj2 root_name_encoding_asymmetry)) "a..b"%string).
  - discriminate.
  - cbn. tauto.
Defined.

(** ** Truncated input *)



(** ** What a decoded query looks like *)

Lemma be16_range (data : list byte) (i v : Z) :
  be16 data i = Some v -> 0 <= v < 65536.
Proof.
  unfold be16. destruct (index data i) as [hi|]; [|discriminate].
  destruct (index data (i + 1)) as [lo|]; [|discriminate].
  intros [= <-]. pose proof (u8_range hi). pose proof (u8_range lo).
  assert (E : Z.land (Z.shiftl (u8 hi) 8) (u8 lo) = 0).
  { apply Z.bits_inj'. intros n Hn. rewrite Z.land_spec, Z.bits_0.
    destruct (Z.ltb_spec n 8).
    - rewrite Z.shiftl_spec_low by lia. reflexivity.
    - rewrite <- (Z.mod_small (u8 lo) (2 ^ 8)) by (change (2 ^ 8) with 256; lia).
      rewrite Z.mod_pow2_bits_high by lia. apply andb_false_r. }
  pose proof (Z.add_lor_land (Z.shiftl (u8 hi) 8) (u8 lo)) as Hadd.
  rewrite E, Z.shiftl_mul_pow2 in Hadd by lia. change (2 ^ 8) with 256 in Hadd.
  rewrite Z.shiftl_mul_pow2 by lia. change (2 ^ 8) with 256. lia.
Qed.

Lemma parseQuestionList_length (fuel n : nat) (data : list byte) :
  forall offset acc qs,
    parseQuestionList fuel n data offset acc = Some (Ok qs) ->
    length qs = (length acc + n)%nat.
Proof.
  induction n as [|n IH]; intros offset acc qs; cbn [parseQuestionList].
  - intros [= <-]. lia.
  - destruct (parseQuestions fuel data offset) as [[[q off]| |]|]; try discriminate.
    intros H. apply IH in H. rewrite length_app in H. cbn in H. lia.
Qed.

(** A decoded query has as many questions as its header announces, so
    fewer than 65536. *)
Lemma ParseDNSMessage_questions (fuel : nat) (data : list byte) (query : DNSMessage) :
  ParseDNSMessage fuel data = Some (Ok query) ->
  len (Questions query) = QDCount (Header query)
  /\ 0 <= QDCount (Header query) < 65536
  /\ Answers query = [].
Proof.
  unfold ParseDNSMessage. destruct (len data <? MIN_MESSAGE_SIZE); [discriminate|].
  destruct (be16 data 0) as [id|]; [|discriminate].
  destruct (be16 data 2) as [fl|]; [|discriminate].
  destruct (be16 data 4) as [qd|] eqn:Eqd; [|discriminate].
  destruct (be16 data 6) as [an|]; [|discriminate].
  destruct (be16 data 8) as [ns|]; [|discriminate].
  destruct (be16 data 10) as [ar|]; [|discriminate].
  destruct (parseQuestionList fuel (Z.to_nat qd) data 12 []) as [[qs| |]|] eqn:E;
    try discriminate.
  intros [= <-]. cbn. apply be16_range in Eqd.
  apply parseQuestionList_length in E. cbn in E. unfold len. rewrite E.
  split; [lia|]. split; [lia | reflexivity].
Qed.

(** ** The record store *)

Lemma LookupRecord_AddRecord (rs : RecordStore) (domain : string) (ty : Z)
    (data : list byte) :
  LookupRecord (AddRecord rs domain ty data) domain ty = Some data.
Proof.
  unfold LookupRecord, AddRecord. cbn [records].
  rewrite lookup_insert_eq. apply lookup_insert_eq.
Qed.

Lemma LookupRecord_AddRecord_other (rs : RecordStore) (domain domain' : string)
    (ty ty' : Z) (data : list byte) :
  domain <> domain' ->
  LookupRecord (AddRecord rs domain ty data) domain' ty' = LookupRecord rs domain' ty'.
Proof.
  intros Hne. unfold LookupRecord, AddRecord. cbn [records].
  rewrite lookup_insert_ne by assumption.
  destruct (records rs !! domain); [reflexivity|].
  now rewrite lookup_insert_ne by assumption.
Qed.

Lemma NewRecordStore_holdsAddresses : holdsAddresses NewRecordStore.
Proof.
  intros domain data. unfold LookupRecord, NewRecordStore. cbn [records].
  repeat (rewrite lookup_insert; case_decide;
          [ rewrite lookup_singleton; case_decide; [|discriminate];
            intros [= <-]; vm_compute; discriminate | ]).
  rewrite lookup_empty. discriminate.
Qed.

(** ** The response builder *)

Lemma isUpper_lowerByte (c : ascii) : Strings.isUpper (Strings.lowerByte c) = false.
Proof.
  destruct c as [[] [] [] [] [] [] [] []]; reflexivity.
Qed.

Lemma hasUpper_map_lowerByte (s : string) :
  hasUpper (Strings.map_string Strings.lowerByte s) = false.
Proof.
  unfold hasUpper. induction s as [|c s IH]; [reflexivity|].
  cbn. now rewrite isUpper_lowerByte, IH.
Qed.

Section ResponseBuilder.

Variable unicodeToLower : string -> string.

Lemma answerQuestion_unsupported (rs : RecordStore) (response : DNSMessage)
    (question : DNSQuestion) :
  unsupported question ->
  answerQuestion unicodeToLower rs response question = Ok response.
Proof.
  intros [H|H]; unfold answerQuestion.
  - destruct (Z.eqb_spec (q_Type question) TYPE_A); [contradiction | reflexivity].
  - destruct (Z.eqb_spec (q_Class question) CLASS_IN); [contradiction|].
    now rewrite andb_false_r.
Qed.

Lemma answerQuestions_unsupported (rs : RecordStore) (questions : list DNSQuestion) :
  Forall unsupported questions ->
  forall response, answerQuestions unicodeToLower rs questions response = Ok response.
Proof.
  induction 1 as [|q qs Hq _ IH]; intros response; [reflexivity|].
  cbn [answerQuestions]. now rewrite answerQuestion_unsupported.
Qed.

(** The loop keeps [ANCount] equal to the number of answers as long as
    that number fits sixteen bits, and touches nothing else of the
    header. *)
Lemma answerQuestions_counts (rs : RecordStore) :
  forall questions response response',
    ANCount (Header response) = len (Answers response) ->
    len (Answers response) + len questions < 65536 ->
    answerQuestions unicodeToLower rs questions response = Ok response' ->
    ANCount (Header response') = len (Answers response')
    /\ Flags (Header response') = Flags (Header response).
Proof.
  induction questions as [|q qs IH]; intros response response' Hc Hb.
  - cbn. intros [= <-]. auto.
  - cbn [answerQuestions]. rewrite len_cons in Hb.
    pose proof (len_nonneg qs). pose proof (len_nonneg (Answers response)).
    unfold answerQuestion.
    destruct ((q_Type q =? TYPE_A) && (q_Class q =? CLASS_IN)).
    2:{ apply IH; [assumption | lia]. }
    destruct (LookupRecord rs (Strings.ToLower unicodeToLower (q_Name q)) TYPE_A)
      as [ipData|].
    2:{ apply IH; [assumption | lia]. }
    destruct (len ipData <? 4); [discriminate|].
    intros E. apply IH in E as [Hc' Hf]; [auto | |].
    + cbn. rewrite Hc, len_app. change (len [_]) with 1.
      apply Z.mod_small. lia.
    + cbn. rewrite len_app. change (len [_]) with 1. lia.
Qed.

(** On a table whose address records hold an address the loop does not
    panic. *)
Lemma answerQuestions_total (rs : RecordStore) :
  holdsAddresses rs ->
  forall questions response,
    exists response', answerQuestions unicodeToLower rs questions response = Ok response'.
Proof.
  intros Hrs. induction questions as [|q qs IH]; intros response; [cbn; eauto|].
  cbn [answerQuestions]. unfold answerQuestion.
  destruct ((q_Type q =? TYPE_A) && (q_Class q =? CLASS_IN)); [|apply IH].
  destruct (LookupRecord rs (Strings.ToLower unicodeToLower (q_Name q)) TYPE_A)
    as [ipData|] eqn:El; [|apply IH].
  apply Hrs in El. destruct (Z.ltb_spec (len ipData) 4); [lia | apply IH].
Qed.

(** C3. For a decoded query the builder gives a response as soon as the
    address records of the table hold an address, and every response it
    gives has an answer count equal to the number of its answer records;
    with no answer record the low two bits of its flags are 0x0003, and
    with at least one they are zero, the flags being the base value
    0x8180. *)
Theorem nxdomain_policy (fuel : nat) (data : list byte) (query : DNSMessage)
    (rs : RecordStore) :
  ParseDNSMessage fuel data = Some (Ok query) ->
  (holdsAddresses rs ->
   exists response, createDNSResponse unicodeToLower rs query = Ok response)
  /\ forall response,
       createDNSResponse unicodeToLower rs query = Ok response ->
       ANCount (Header response) = len (Answers response)
       /\ (Answers response = [] ->
           Z.land (Flags (Header response)) 0x0003 = 0x0003)
       /\ (Answers response <> [] ->
           Z.land (Flags (Header response)) 0x0003 = 0
           /\ Flags (Header response) = 0x8180).
Proof.
  intros Hq. apply ParseDNSMessage_questions in Hq as (Hl & Hr & _).
  unfold createDNSResponse. split.
  - intros Hrs.
    destruct (answerQuestions_total rs Hrs (Questions query) (newResponse query))
      as [r ->].
    eauto.
  - intros response.
    destruct (answerQuestions unicodeToLower rs (Questions query) (newResponse query))
      as [r| |] eqn:E; try discriminate.
    intros [= <-].
    apply answerQuestions_counts in E as [Hc Hf];
      [|reflexivity | cbn; change (len []) with 0; lia].
    cbn in Hf. unfold setRcode.
    destruct (Z.eqb_spec (ANCount (Header r)) 0) as [E0|E0]; cbn.
    + split; [assumption|]. split.
      * intros _. now rewrite Hf.
      * intros Hne. rewrite Hc in E0. destruct (Answers r); [congruence|].
        rewrite len_cons in E0. pose proof (len_nonneg l). lia.
    + split; [assumption|]. split.
      * intros Hnil. rewrite Hc, Hnil in E0. now contradiction E0.
      * intros _. now rewrite Hf.
Qed.

(** C4. The query of scenario A, against a table that maps
    [www.example.com] to 192.168.1.1, gets the response with its id,
    flags 0x8180, its question and the one answer of type A, class IN,
    TTL 300 and the four address bytes. *)
Theorem scenario_A (rs : RecordStore) :
  LookupRecord rs "www.example.com" TYPE_A = Some (bytes [192; 168; 1; 1]) ->
  createDNSResponse unicodeToLower rs queryA
  = Ok (mkMessage (mkHeader 0x1234 0x8180 1 1 0 0)
          [mkQuestion "www.example.com" 1 1]
          [mkRR "www.example.com" 1 1 300 (bytes [192; 168; 1; 1])]).
Proof.
  intros H. unfold createDNSResponse, queryA.
  cbn [Questions answerQuestions].
  unfold answerQuestion. cbn [q_Type q_Class q_Name].
  change (Strings.ToLower unicodeToLower "www.example.com")
    with "www.example.com"%string.
  cbn [Z.eqb TYPE_A CLASS_IN Pos.eqb andb]. rewrite H. reflexivity.
Qed.

(** C5. A question that is not of type A, or not of class IN, leaves the
    response as it is whatever the table holds; so a query made of such
    questions gets no answer, an answer count of 0 and the flags 0x8183,
    whose low two bits are 0x0003, from every table. *)
Theorem unsupported_never_resolves (rs : RecordStore) :
  (forall response question,
     unsupported question ->
     answerQuestion unicodeToLower rs response question = Ok response)
  /\ (forall query,
        Forall unsupported (Questions query) ->
        createDNSResponse unicodeToLower rs query
        = Ok (mkMessage
                (mkHeader (ID (Header query)) 0x8183 (QDCount (Header query)) 0 0 0)
                (Questions query) [])
        /\ Z.land 0x8183 0x0003 = 0x0003).
Proof.
  split; [apply answerQuestion_unsupported|].
  intros query H. split; [|reflexivity].
  unfold createDNSResponse.
  now rewrite answerQuestions_unsupported.
Qed.

Hypothesis unicodeToLower_lower : forall s, hasUpper (unicodeToLower s) = false.

Lemma hasUpper_ToLower (s : string) : hasUpper (Strings.ToLower unicodeToLower s) = false.
Proof using unicodeToLower_lower.
  unfold Strings.ToLower. cbv zeta.
  destruct (Strings.forallb_string Strings.isASCII s).
  - destruct (Strings.existsb_string Strings.isUpper s) eqn:E; cbn [negb].
    + apply hasUpper_map_lowerByte.
    + exact E.
  - apply unicodeToLower_lower.
Qed.

Lemma answerQuestions_AddRecord_upper (rs : RecordStore) (domain : string)
    (ty : Z) (data : list byte) :
  hasUpper domain = true ->
  forall questions response,
    answerQuestions unicodeToLower (AddRecord rs domain ty data) questions response
    = answerQuestions unicodeToLower rs questions response.
Proof using unicodeToLower_lower.
  intros Hup. induction questions as [|q qs IH]; intros response; [reflexivity|].
  cbn [answerQuestions].
  assert (E : answerQuestion unicodeToLower (AddRecord rs domain ty data) response q
              = answerQuestion unicodeToLower rs response q).
  { unfold answerQuestion.
    rewrite LookupRecord_AddRecord_other; [reflexivity|].
    intros ->. rewrite hasUpper_ToLower in Hup. discriminate. }
  rewrite E. destruct (answerQuestion unicodeToLower rs response q); auto.
Qed.

(** C9. A record added under a domain with an upper-case letter is
    stored under that very string, where a lookup of that string finds
    it, and no response ever carries it: every query, whatever its
    casing, gets from the table with the record the response it gets
    from the table without. *)
Theorem mixed_case_keys_unreachable (rs : RecordStore) (domain : string)
    (ty : Z) (data : list byte) :
  hasUpper domain = true ->
  LookupRecord (AddRecord rs domain ty data) domain ty = Some data
  /\ forall query,
       createDNSResponse unicodeToLower (AddRecord rs domain ty data) query
       = createDNSResponse unicodeToLower rs query.
Proof using unicodeToLower_lower.
  intros Hup. split; [apply LookupRecord_AddRecord|].
  intros query. unfold createDNSResponse.
  now rewrite answerQuestions_AddRecord_upper.
Qed.

End ResponseBuilder.

(** ** Decoding an encoded message *)

Lemma fold_encodeQuestion (qs : list DNSQuestion) (buffer : list byte) :
  fold_left encodeQuestion qs buffer = buffer ++ concat (map wireQuestion qs).
Proof.
  revert buffer. induction qs as [|q qs IH]; intros buffer; cbn.
  - now rewrite app_nil_r.
  - rewrite IH. unfold encodeQuestion, wireQuestion. now rewrite <- !app_assoc.
Qed.

Lemma fold_encodeAnswer (answers : list DNSResourceRecord) (buffer : list byte) :
  exists tail, fold_left encodeAnswer answers buffer = buffer ++ tail.
Proof.
  revert buffer. induction answers as [|a answers IH]; intros buffer; cbn.
  - exists []. now rewrite app_nil_r.
  - destruct (IH (encodeAnswer buffer a)) as [tail ->].
    unfold encodeAnswer. rewrite <- !app_assoc. eauto.
Qed.

Lemma EncodeDNSMessage_shape (msg : DNSMessage) :
  exists tail,
    EncodeDNSMessage msg
    = encodeHeader (Header msg) ++ concat (map wireQuestion (Questions msg)) ++ tail.
Proof.
  unfold EncodeDNSMessage. rewrite fold_encodeQuestion.
  destruct (fold_encodeAnswer (Answers msg)
              (encodeHeader (Header msg) ++ concat (map wireQuestion (Questions msg))))
    as [tail ->].
  exists tail. now rewrite <- app_assoc.
Qed.

Lemma goodLabel_short (ls : list string) :
  Forall goodLabel ls -> List.filter shortLabel ls = ls.
Proof.
  induction 1 as [|l ls [H1 H2] _ IH]; [reflexivity|].
  cbn. unfold shortLabel at 1.
  destruct (Z.leb_spec (Z.of_nat (String.length l)) 63); [|lia].
  now rewrite IH.
Qed.

Lemma wellFormedName_encoding (name : string) :
  wellFormedName name ->
  EncodeDomainName name
  = concat (map wireLabel (Strings.Split name ".")) ++ [x00].
Proof.
  intros H. unfold EncodeDomainName.
  destruct (String.eqb_spec name "") as [->|_].
  - inversion H as [|? ? [H1 _] _]; subst. cbn in H1. lia.
  - now rewrite fold_encodeLabel, goodLabel_short.
Qed.

Lemma parseDomainName_wire (name : string) (pre post : list byte) (fuel : nat) :
  wellFormedName name ->
  (length (Strings.Split name ".") < fuel)%nat ->
  parseDomainName fuel (pre ++ EncodeDomainName name ++ post) (len pre)
  = Some (Ok (name, len pre + len (EncodeDomainName name))).
Proof.
  intros Hwf Hfuel. rewrite wellFormedName_encoding by assumption.
  unfold parseDomainName. rewrite <- app_assoc. cbn [app].
  rewrite parseDomainName_from_wire by assumption.
  cbn [app]. unfold finishName.
  destruct (Strings.Split name ".") as [|l ls] eqn:E.
  - now apply Split_nonempty in E.
  - rewrite <- E, Join_Split. do 3 f_equal.
    rewrite len_app. change (len [x00]) with 1. lia.
Qed.

Lemma parseQuestions_wire (q : DNSQuestion) (pre post : list byte) (fuel : nat) :
  wellFormedQuestion q ->
  (length (Strings.Split (q_Name q) ".") < fuel)%nat ->
  parseQuestions fuel (pre ++ wireQuestion q ++ post) (len pre)
  = Some (Ok (q, len pre + len (wireQuestion q))).
Proof.
  intros (Hn & Ht & Hc) Hfuel. unfold parseQuestions, wireQuestion.
  rewrite <- !app_assoc.
  rewrite parseDomainName_wire by assumption.
  set (name := EncodeDomainName (q_Name q)).
  pose proof (len_nonneg post).
  destruct (Z.ltb_spec
              (len (pre ++ name ++ put16 (q_Type q) ++ put16 (q_Class q) ++ post))
              (len pre + len name + 4)) as [Hlt|_].
  { rewrite !len_app, !len_put16 in Hlt. lia. }
  replace (pre ++ name ++ put16 (q_Type q) ++ put16 (q_Class q) ++ post)
    with ((pre ++ name) ++ put16 (q_Type q) ++ (put16 (q_Class q) ++ post))
    at 1 by now rewrite <- !app_assoc.
  replace (len pre + len name) with (len (pre ++ name)) at 1 by apply len_app.
  rewrite be16_put16 by assumption.
  replace (pre ++ name ++ put16 (q_Type q) ++ put16 (q_Class q) ++ post)
    with ((pre ++ name ++ put16 (q_Type q)) ++ put16 (q_Class q) ++ post)
    by now rewrite <- !app_assoc.
  replace (len pre + len name + 2) with (len (pre ++ name ++ put16 (q_Type q)))
    by (rewrite !len_app, len_put16; lia).
  rewrite be16_put16 by assumption.
  destruct q as [n t c]. cbn [q_Name q_Type q_Class]. do 3 f_equal.
  rewrite !len_app, !len_put16. lia.
Qed.

Lemma parseQuestionList_wire (qs : list DNSQuestion) :
  forall (pre post : list byte) (acc : list DNSQuestion) (fuel : nat),
    Forall wellFormedQuestion qs ->
    Forall (fun q => (length (Strings.Split (q_Name q) ".") < fuel)%nat) qs ->
    parseQuestionList fuel (length qs)
      (pre ++ concat (map wireQuestion qs) ++ post) (len pre) acc
    = Some (Ok (acc ++ qs)).
Proof.
  induction qs as [|q qs IH]; intros pre post acc fuel Hwf Hfuel.
  - cbn. now rewrite app_nil_r.
  - inversion Hwf as [|? ? Hq Hqs]; subst. inversion Hfuel as [|? ? Hf Hfs]; subst.
    cbn [length parseQuestionList map concat]. rewrite <- app_assoc.
    rewrite parseQuestions_wire by assumption.
    replace (pre ++ wireQuestion q ++ concat (map wireQuestion qs) ++ post)
      with ((pre ++ wireQuestion q) ++ concat (map wireQuestion qs) ++ post)
      by now rewrite <- app_assoc.
    rewrite <- len_app. rewrite IH by assumption.
    now rewrite <- app_assoc.
Qed.

Lemma be16_encodeHeader (h : DNSHeader) (rest : list byte) :
  wellFormedHeader h ->
  be16 (encodeHeader h ++ rest) 0 = Some (ID h)
  /\ be16 (encodeHeader h ++ rest) 2 = Some (Flags h)
  /\ be16 (encodeHeader h ++ rest) 4 = Some (QDCount h)
  /\ be16 (encodeHeader h ++ rest) 6 = Some (ANCount h)
  /\ be16 (encodeHeader h ++ rest) 8 = Some (NSCount h)
  /\ be16 (encodeHeader h ++ rest) 10 = Some (ARCount h).
Proof.
  intros (H1 & H2 & H3 & H4 & H5 & H6). unfold encodeHeader.
  repeat split.
  - apply (be16_put16 [] _ _ H1).
  - apply (be16_put16 (put16 (ID h)) _ _ H2).
  - apply (be16_put16 (put16 (ID h) ++ put16 (Flags h)) _ _ H3).
  - apply (be16_put16 (put16 (ID h) ++ put16 (Flags h) ++ put16 (QDCount h)) _ _ H4).
  - apply (be16_put16 (put16 (ID h) ++ put16 (Flags h) ++ put16 (QDCount h)
                         ++ put16 (ANCount h)) _ _ H5).
  - apply (be16_put16 (put16 (ID h) ++ put16 (Flags h) ++ put16 (QDCount h)
                         ++ put16 (ANCount h) ++ put16 (NSCount h)) _ _ H6).
Qed.

(** X25. Decoding the bytes [EncodeDNSMessage] makes of a well-formed
    message gives its six header fields and its question list back
    exactly, and an empty answer list: the decoder stops after the
    questions, so the answers come back only when there are none. *)
Theorem decode_encode_header_and_questions (msg : DNSMessage) :
  wellFormedMessage msg ->
  forall fuel, (labelCount msg < fuel)%nat ->
    ParseDNSMessage fuel (EncodeDNSMessage msg)
    = Some (Ok (mkMessage (Header msg) (Questions msg) [])).
Proof.
  intros (Hh & Hqd & Hqs) fuel Hfuel.
  destruct (EncodeDNSMessage_shape msg) as [tail ->].
  unfold ParseDNSMessage, MIN_MESSAGE_SIZE.
  set (body := concat (map wireQuestion (Questions msg)) ++ tail).
  destruct (Z.ltb_spec (len (encodeHeader (Header msg) ++ body)) 12) as [Hlt|_].
  { rewrite len_app in Hlt. change (len (encodeHeader _)) with 12 in Hlt.
    pose proof (len_nonneg body). lia. }
  destruct (be16_encodeHeader (Header msg) body Hh) as (-> & -> & -> & -> & -> & ->).
  rewrite Hqd. unfold len at 1. rewrite Nat2Z.id.
  change 12 with (len (encodeHeader (Header msg))). subst body.
  rewrite parseQuestionList_wire.
  - cbn [app]. rewrite <- Hqd. now destruct (Header msg).
  - assumption.
  - unfold labelCount in Hfuel. apply List.Forall_forall. intros q Hq.
    apply Nat.le_lt_trans with (2 := Hfuel).
    pose proof (proj1 (list_max_le _ _) (Nat.le_refl
      (list_max (map (fun q => length (Strings.Split (q_Name q) ".")) (Questions msg)))))
      as Hall.
    rewrite List.Forall_forall in Hall. apply Hall.
    now apply (in_map (fun q => length (Strings.Split (q_Name q) "."))).
Qed.

Lemma responseTest_wellFormed : wellFormedMessage responseTest.
Proof.
  unfold wellFormedMessage, wellFormedHeader, u16. cbn.
  repeat split; try lia.
  constructor; [|constructor].
  unfold wellFormedQuestion, wellFormedName, u16. cbn.
  repeat split; try lia.
  repeat constructor; cbn; lia.
Qed.

(** On the encoder test's response the header and the question come
    back, as the theorem says. *)
Lemma decode_encode_header_and_questions_witness :
  ParseDNSMessage 3 (EncodeDNSMessage responseTest)
  = Some (Ok (mkMessage (Header responseTest) (Questions responseTest) [])).
Proof.
  apply (decode_encode_header_and_questions responseTest responseTest_wellFormed 3%nat).
  vm_compute. lia.
Defined.

(** C2. Decoding an encoded message does not give its answers back: the
    encoder test's response is well formed and has one answer, and
    decoding its encoding gives a message with no answer. The integration
    tests decode such a response and read its first answer. *)
Lemma decode_encode_loses_answers :
  wellFormedMessage responseTest
  /\ exists decoded,
       ParseDNSMessage 3 (EncodeDNSMessage responseTest) = Some (Ok decoded)
       /\ Answers decoded = []
       /\ Answers decoded <> Answers responseTest.
Proof.
  split; [exact responseTest_wellFormed|].
  eexists. split; [vm_compute; reflexivity|]. split; [reflexivity | discriminate].
Qed.

(** The same on the exchange of the integration tests: the reply to their
    query for [www.example.com] announces one answer in its header, and
    the message it decodes to has none, where the tests expect one of
    type A with the address [192.168.1.1]. *)
Lemma integration_reply_decodes_without_answer :
  exists reply decoded,
    handleDNSQuery lowerBytes 4 NewRecordStore (EncodeDNSMessage queryA)
    = Some (Ok (Some reply))
    /\ ParseDNSMessage 4 reply = Some (Ok decoded)
    /\ ID (Header decoded) = 0x1234
    /\ ANCount (Header decoded) = 1
    /\ Answers decoded = [].
Proof.
  do 2 eexists. split; [vm_compute; reflexivity|].
  split; [vm_compute; reflexivity|]. repeat split.
Qed.

(** ** Witnesses for the response builder *)

(** The datagram of scenario A's query, as the parser's unit test has it. *)
Lemma queryA_decoded :
  ParseDNSMessage 4
    (bytes [0x12; 0x34; 0x01; 0x00; 0x00; 0x01; 0x00; 0x00; 0x00; 0x00; 0x00; 0x00;
            3; 119; 119; 119; 7; 101; 120; 97; 109; 112; 108; 101; 3; 99; 111; 109; 0;
            0x00; 0x01; 0x00; 0x01])
  = Some (Ok queryA).
Proof. vm_compute. reflexivity. Qed.

Lemma nxdomain_policy_witness :
  exists response,
    createDNSResponse lowerBytes NewRecordStore queryA = Ok response
    /\ ANCount (Header response) = len (Answers response)
    /\ (Answers response = [] ->
        Z.land (Flags (Header response)) 0x0003 = 0x0003)
    /\ (Answers response <> [] ->
        Z.land (Flags (Header response)) 0x0003 = 0
        /\ Flags (Header response) = 0x8180).
Proof.
  destruct (nxdomain_policy lowerBytes _ _ _ NewRecordStore queryA_decoded)
    as [Hgives Hall].
  destruct (Hgives NewRecordStore_holdsAddresses) as [response E].
  exists response. split; [exact E | exact (Hall response E)].
Defined.

Lemma scenario_A_witness :
  createDNSResponse lowerBytes NewRecordStore queryA
  = Ok (mkMessage (mkHeader 0x1234 0x8180 1 1 0 0)
          [mkQuestion "www.example.com" 1 1]
          [mkRR "www.example.com" 1 1 300 (bytes [192; 168; 1; 1])]).
Proof.
  apply (scenario_A lowerBytes NewRecordStore). vm_compute. reflexivity.
Defined.

(** Scenario C: the table has an address for [www.example.com], and a
    type-28 question for that name gets no answer. *)
Lemma unsupported_never_resolves_witness :
  LookupRecord NewRecordStore "www.example.com" TYPE_A = Some (bytes [192; 168; 1; 1])
  /\ createDNSResponse lowerBytes NewRecordStore
       (mkMessage (mkHeader 0x1234 0x0100 1 0 0 0)
                  [mkQuestion "www.example.com" TYPE_AAAA CLASS_IN] [])
     = Ok (mkMessage (mkHeader 0x1234 0x8183 1 0 0 0)
                     [mkQuestion "www.example.com" TYPE_AAAA CLASS_IN] []).
Proof.
  split; [vm_compute; reflexivity|].
  apply (proj2 (unsupported_never_resolves lowerBytes NewRecordStore)
           (mkMessage (mkHeader 0x1234 0x0100 1 0 0 0)
                      [mkQuestion "www.example.com" TYPE_AAAA CLASS_IN] [])).
  constructor; [|constructor]. left. vm_compute. discriminate.
Defined.

Lemma mixed_case_keys_unreachable_witness :
  LookupRecord (AddRecord NewRecordStore "Mail.Example.com" TYPE_A (bytes [10; 0; 0; 2]))
    "Mail.Example.com" TYPE_A
  = Some (bytes [10; 0; 0; 2])
  /\ forall query,
       createDNSResponse lowerBytes
         (AddRecord NewRecordStore "Mail.Example.com" TYPE_A (bytes [10; 0; 0; 2])) query
       = createDNSResponse lowerBytes NewRecordStore query.
Proof.
  apply (mixed_case_keys_unreachable lowerBytes hasUpper_map_lowerByte).
  reflexivity.
Defined.

(** ** Termination of name decoding *)

Lemma finishName_not_Panic (labels : list string) (offset : Z) :
  finishName labels offset <> Panic.
Proof. destruct labels; discriminate. Qed.

Lemma hop_source (data : list byte) (o t : Z) : hop data o t -> 0 <= o < len data.
Proof. intros [? ? ? H _ _ | ? ? ? H _ _ _ _]; now apply index_Some_range in H. Qed.

Lemma pointer_nonneg (b b1 : byte) :
  0 <= Z.lor (Z.shiftl (Z.land (u8 b) 0x3F) 8) (u8 b1).
Proof.
  pose proof (u8_range b). pose proof (u8_range b1).
  apply Z.lor_nonneg. split; [|lia].
  apply Z.shiftl_nonneg. apply Z.land_nonneg. lia.
Qed.

(** From any offset the label loop, which moves forward by at least two
    bytes per label, either leaves the function or reaches a pointer; in
    the latter case the call returns as soon as the call on the pointer's
    target does. *)
Lemma label_loop_reaches (data : list byte) (n : nat) :
  forall (offset : Z) (labels : list string),
    0 <= offset ->
    len data - offset <= Z.of_nat n ->
    returns data labels offset
    \/ exists t, hop data offset t /\ 0 <= t
                 /\ (returns data [] t -> returns data labels offset).
Proof.
  induction n as [|n IH]; intros offset labels H0 Hn.
  - left. exists 1%nat, (Err UnexpectedEnd). split; [|discriminate].
    apply parseDomainName_from_end. lia.
  - destruct (Z.le_gt_cases (len data) offset) as [Hend|Hin].
    { left. exists 1%nat, (Err UnexpectedEnd). split; [|discriminate].
      now apply parseDomainName_from_end. }
    destruct (index_in_range data offset) as [b Hb]; [lia|].
    pose proof (u8_range b) as Hu.
    destruct (Z.eq_dec (u8 b) 0) as [Hz|Hnz].
    { left. exists 1%nat, (finishName labels (offset + 1)).
      split; [now apply parseDomainName_from_zero with (b := b)
             | apply finishName_not_Panic]. }
    destruct (Z.eq_dec (Z.land (u8 b) 0xC0) 0xC0) as [Hp|Hnp].
    + destruct (Z.le_gt_cases (len data) (offset + 1)) as [Hcut|Hfit].
      { left. exists 1%nat, (Err InvalidPointer). split; [|discriminate].
        now apply parseDomainName_from_pointer_cut with (b := b). }
      destruct (index_in_range data (offset + 1)) as [b1 Hb1]; [lia|].
      right. exists (Z.lor (Z.shiftl (Z.land (u8 b) 0x3F) 8) (u8 b1)).
      split; [now apply hop_pointer|]. split; [apply pointer_nonneg|].
      intros (fuel & r & Hr & Hok).
      exists (S fuel).
      rewrite (parseDomainName_from_pointer fuel data labels offset b Hb b1 Hp Hb1), Hr.
      destruct r as [[name off]|e|]; [| |contradiction].
      * eexists. split; [reflexivity | apply finishName_not_Panic].
      * eexists. split; [reflexivity | discriminate].
    + destruct (Z.lt_ge_cases (len data) (offset + u8 b + 1)) as [Hover|Hfit].
      { left. exists 1%nat, (Err LabelOverrun). split; [|discriminate].
        now apply parseDomainName_from_overrun with (b := b). }
      set (label := string_of_list_byte (slice data (offset + 1) (offset + 1 + u8 b))).
      destruct (IH (offset + u8 b + 1) (labels ++ [label])) as [Hret|(t & Hhop & Ht & Hret)];
        [lia | lia | |].
      * left. destruct Hret as (fuel & r & Hr & Hok). exists (S fuel), r.
        split; [|assumption].
        now rewrite (parseDomainName_from_label fuel data labels offset b Hb Hnz Hnp).
      * right. exists t. split; [now apply hop_label with (b := b)|].
        split; [assumption|]. intros Hcall.
        destruct (Hret Hcall) as (fuel & r & Hr & Hok). exists (S fuel), r.
        split; [|assumption].
        now rewrite (parseDomainName_from_label fuel data labels offset b Hb Hnz Hnp).
Qed.

(** When every chain of pointers from [offset] is finite, the call
    returns. *)
Lemma returns_of_finite_chains (data : list byte) (offset : Z) :
  Acc (fun t o => hop data o t) offset ->
  0 <= offset ->
  forall labels, returns data labels offset.
Proof.
  induction 1 as [offset _ IH]; intros H0 labels.
  destruct (label_loop_reaches data (Z.to_nat (len data - offset)) offset labels)
    as [Hret|(t & Hhop & Ht & Hret)]; [lia | lia | assumption |].
  apply Hret. now apply IH.
Qed.

(** Offsets that start a hop lie in the buffer, so a chain that never
    comes back to an offset has at most [len data] hops. *)
Lemma finite_chains_of_no_cycle (data : list byte) (k : nat) :
  forall (visited : list Z) (o : Z),
    NoDup visited ->
    (forall v, v ∈ visited -> 0 <= v < len data) ->
    (forall v, v ∈ visited -> tc (hop data) v o) ->
    (forall t, rtc (hop data) o t -> ~ tc (hop data) t t) ->
    (length data < length visited + k)%nat ->
    Acc (fun t o => hop data o t) o.
Proof.
  induction k as [|k IH]; intros visited o Hnd Hrange Hreach Hcyc Hlen.
  - exfalso.
    assert (Hsub : visited ⊆+ seqZ 0 (len data)).
    { apply NoDup_submseteq; [assumption|]. intros v Hv.
      apply elem_of_seqZ. specialize (Hrange v Hv). lia. }
    apply submseteq_length in Hsub. rewrite length_seqZ in Hsub.
    unfold len in Hsub. lia.
  - constructor. intros t Hhop.
    apply (IH (o :: visited)).
    + apply NoDup_cons. split; [|assumption].
      intros Hin. apply (Hcyc o); [constructor | now apply Hreach].
    + intros v Hv. apply elem_of_cons in Hv as [->|Hv];
        [now apply hop_source in Hhop | now apply Hrange].
    + intros v Hv. apply elem_of_cons in Hv as [->|Hv].
      * now apply tc_once.
      * apply tc_r with o; [now apply Hreach | assumption].
    + intros u Hu. apply Hcyc. now apply rtc_l with t.
    + cbn [length]. lia.
Qed.

(** A call that has returned within a budget returns the same within
    any larger one. *)
Lemma parseDomainName_from_more_fuel (data : list byte) (fuel : nat) :
  forall labels offset r,
    parseDomainName_from fuel data labels offset = Some r ->
    forall fuel', (fuel <= fuel')%nat ->
      parseDomainName_from fuel' data labels offset = Some r.
Proof.
  induction fuel as [|fuel IH]; intros labels offset r H fuel' Hle; [discriminate|].
  destruct fuel' as [|fuel']; [lia|].
  cbn [parseDomainName_from] in *.
  destruct (len data <=? offset); [assumption|].
  destruct (index data offset) as [b|]; [|assumption].
  cbv zeta in *.
  destruct (u8 b =? 0); [assumption|].
  destruct (Z.land (u8 b) 192 =? 192).
  - destruct (len data <=? offset + 1); [assumption|].
    destruct (index data (offset + 1)) as [b1|]; [|assumption].
    destruct (parseDomainName_from fuel data []
                (Z.lor (Z.shiftl (Z.land (u8 b) 63) 8) (u8 b1))) as [r'|] eqn:E;
      [|discriminate].
    now rewrite (IH _ _ _ E fuel') by lia.
  - destruct (len data <? offset + u8 b + 1); [assumption|].
    apply IH; [assumption | lia].
Qed.

(** A call that reaches a pointer is running for as long as the call on
    the pointer's target is. *)
Lemma hop_waits (data : list byte) (o t : Z) :
  tc (hop data) o t ->
  forall fuel labels,
    (forall f, (f < fuel)%nat -> parseDomainName_from f data [] t = None) ->
    parseDomainName_from fuel data labels o = None.
Proof.
  assert (Hstep : forall o t, hop data o t ->
            forall fuel labels,
              (forall f, (f < fuel)%nat -> parseDomainName_from f data [] t = None) ->
              parseDomainName_from fuel data labels o = None).
  { clear o t. induction 1 as [o b b1 Hb Hp Hb1 | o b t Hb Hnz Hnp Hfit _ IH];
      intros [|fuel] labels Ht; try reflexivity.
    - rewrite (parseDomainName_from_pointer fuel data labels o b Hb b1 Hp Hb1).
      now rewrite Ht by lia.
    - rewrite (parseDomainName_from_label fuel data labels o b Hb Hnz Hnp Hfit).
      apply IH. intros f Hf. apply Ht. lia. }
  induction 1 as [o t Hh | o y t Hh _ IH]; intros fuel labels Ht.
  - now apply Hstep with t.
  - apply Hstep with y; [assumption|]. intros f Hf. apply IH.
    intros f' Hf'. apply Ht. lia.
Qed.

(** The condition of the theorem below is the exact one: when resolution
    does revisit an offset, the call never returns. *)
Lemma revisit_never_returns (data : list byte) (offset : Z) :
  revisits data offset ->
  forall fuel, parseDomainName fuel data offset = None.
Proof.
  intros (t & Hr & Hc).
  assert (Hloop : forall fuel labels, parseDomainName_from fuel data labels t = None).
  { induction fuel as [fuel IH] using (well_founded_induction lt_wf).
    intros labels. apply (hop_waits data t t Hc). intros f Hf. now apply IH. }
  intros fuel. unfold parseDomainName.
  apply rtc_tc in Hr as [->|Hr]; [apply Hloop|].
  apply (hop_waits data offset t Hr). intros f _. apply Hloop.
Qed.

(** C1, as the code has it. [parseDomainName] has no guard against
    pointer cycles; it returns, with a name or an error, from every buffer
    and every starting offset from which following the pointers never
    comes back to an offset it started from before. *)
Theorem parseDomainName_returns_without_revisit (data : list byte) (offset : Z) :
  0 <= offset ->
  ~ revisits data offset ->
  exists fuel,
    (exists name newOffset,
       parseDomainName fuel data offset = Some (Ok (name, newOffset)))
    \/ (exists e, parseDomainName fuel data offset = Some (Err e)).
Proof.
  intros H0 Hno.
  assert (Hacc : Acc (fun t o => hop data o t) offset).
  { apply (finite_chains_of_no_cycle data (S (length data)) []).
    - constructor.
    - intros v Hv. inversion Hv.
    - intros v Hv. inversion Hv.
    - intros t Hr Hc. apply Hno. exists t. auto.
    - cbn. lia. }
  destruct (returns_of_finite_chains data offset Hacc H0 []) as (fuel & r & Hr & Hok).
  exists fuel. unfold parseDomainName. rewrite Hr.
  destruct r as [[name off]|e|]; [left; eauto | right; eauto | contradiction].
Qed.

(** The pointer at offset 0 of [[0xC0; 0x00]] targets offset 0: however
    large the budget, the call is still running. *)
Lemma self_pointer_loops (fuel : nat) :
  forall labels, parseDomainName_from fuel [xc0; x00] labels 0 = None.
Proof.
  induction fuel as [|fuel IH]; intros labels; [reflexivity|].
  rewrite (parseDomainName_from_pointer fuel [xc0; x00] labels 0 xc0 eq_refl x00 eq_refl eq_refl).
  change (Z.lor (Z.shiftl (Z.land (u8 xc0) 63) 8) (u8 x00)) with 0.
  now rewrite IH.
Qed.

(** C1 fails as stated: on the two-byte buffer whose pointer targets its
    own offset, resolution revisits offset 0 and the call never returns,
    neither with a name nor with an error. *)
Lemma parseDomainName_self_pointer_never_returns :
  revisits [xc0; x00] 0
  /\ ~ (exists fuel r, parseDomainName fuel [xc0; x00] 0 = Some r).
Proof.
  split.
  - exists 0. split; [constructor|]. apply tc_once.
    exact (hop_pointer [xc0; x00] 0 xc0 x00 eq_refl eq_refl eq_refl).
  - intros (fuel & r & H). unfold parseDomainName in H.
    rewrite self_pointer_loops in H. discriminate.
Qed.

(** The same through a label: in [[1; 'a'; 0xC0; 0x00]] the pointer behind
    the label [a] targets the label, and the call never returns. *)
Lemma pointer_chain_loops (fuel : nat) :
  forall labels, parseDomainName_from fuel [x01; x61; xc0; x00] labels 0 = None.
Proof.
  induction fuel as [fuel IH] using (well_founded_induction lt_wf).
  intros labels. destruct fuel as [|[|fuel]]; [reflexivity | reflexivity |].
  rewrite (parseDomainName_from_label _ [x01; x61; xc0; x00] labels 0 x01 eq_refl);
    [| vm_compute; discriminate | vm_compute; discriminate | vm_compute; discriminate].
  change (0 + u8 x01 + 1) with 2.
  rewrite (parseDomainName_from_pointer fuel [x01; x61; xc0; x00] _ 2 xc0 eq_refl x00 eq_refl eq_refl).
  change (Z.lor (Z.shiftl (Z.land (u8 xc0) 63) 8) (u8 x00)) with 0.
  rewrite IH by lia. reflexivity.
Qed.

(** ** A compressed name that is decoded *)

Lemma compressed_hop_0 (t : Z) : ~ hop compressed 0 t.
Proof.
  intros H. hop_cases H.
  match goal with H' : hop _ _ _ |- _ => hop_cases H' end.
Qed.

Lemma compressed_hop_5 (t : Z) : hop compressed 5 t -> t = 0.
Proof.
  intros H. hop_cases H.
  match goal with H' : hop _ _ _ |- _ => hop_cases H' end.
  reflexivity.
Qed.

Lemma compressed_no_revisit : ~ revisits compressed 5.
Proof.
  intros (t & Hr & Hc).
  assert (Ht : t = 5 \/ t = 0).
  { apply rtc_inv in Hr as [<-|(y & Hy & Hr)]; [now left|].
    apply compressed_hop_5 in Hy as ->.
    apply rtc_inv in Hr as [<-|(y & Hy & _)]; [now right|].
    now apply compressed_hop_0 in Hy. }
  destruct Ht as [-> | ->].
  - inversion Hc as [? ? Hh|? y ? Hh Hc']; subst.
    + apply compressed_hop_5 in Hh. discriminate.
    + apply compressed_hop_5 in Hh as ->.
      inversion Hc' as [? ? Hh|? y ? Hh _]; subst; now apply compressed_hop_0 in Hh.
  - inversion Hc as [? ? Hh|? y ? Hh _]; subst; now apply compressed_hop_0 in Hh.
Qed.

(** The second occurrence of [com], through the pointer, decodes. *)
Lemma parseDomainName_returns_without_revisit_witness :
  exists fuel,
    (exists name newOffset,
       parseDomainName fuel compressed 5 = Some (Ok (name, newOffset)))
    \/ (exists e, parseDomainName fuel compressed 5 = Some (Err e)).
Proof.
  apply (parseDomainName_returns_without_revisit compressed 5).
  - lia.
  - exact compressed_no_revisit.
Defined.

Example compressed_name : parseDomainName 4 compressed 5 = Some (Ok ("www.com"%string, 11)).
Proof. vm_compute. reflexivity. Qed.

(** * Further properties of the code *)

(** ** records.go: add, remove, look up *)

(** X1. After [AddRecord] a lookup of the added domain and type gives the
    added data, and a lookup of any other domain or type gives what it
    gave before. *)
Theorem AddRecord_lookup (rs : RecordStore) (domain domain' : string)
    (ty ty' : Z) (data : list byte) :
  LookupRecord (AddRecord rs domain ty data) domain' ty'
  = if decide (domain = domain' /\ ty = ty') then Some data
    else LookupRecord rs domain' ty'.
Proof.
  destruct (decide (domain = domain')) as [<-|Hd].
  - unfold LookupRecord, AddRecord. cbn [records].
    rewrite lookup_insert_eq, lookup_insert.
    destruct (decide (ty = ty')) as [<-|Ht].
    + rewrite decide_True by auto. reflexivity.
    + rewrite decide_False by tauto.
      destruct (records rs !! domain) as [m|] eqn:E.
      * now rewrite E.
      * now rewrite lookup_insert_eq.
  - rewrite decide_False by tauto.
    now apply LookupRecord_AddRecord_other.
Qed.

(** X2. After [RemoveRecord] a lookup of the removed domain and type finds
    nothing, and a lookup of any other domain or type gives what it gave
    before, also when the removal took the domain out of the table. *)
Theorem RemoveRecord_lookup (rs : RecordStore) (domain domain' : string)
    (ty ty' : Z) :
  LookupRecord (RemoveRecord rs domain ty) domain' ty'
  = if decide (domain = domain' /\ ty = ty') then None
    else LookupRecord rs domain' ty'.
Proof.
  unfold RemoveRecord.
  destruct (records rs !! domain) as [m|] eqn:E.
  - destruct (decide (size (delete ty m) = 0%nat)) as [Hs|Hs].
    + apply map_size_empty_iff in Hs.
      unfold LookupRecord. cbn [records].
      destruct (decide (domain = domain')) as [<-|Hd].
      * rewrite lookup_delete_eq, E.
        destruct (decide (ty = ty')) as [<-|Ht].
        -- now rewrite decide_True by auto.
        -- rewrite decide_False by tauto.
           rewrite <- (lookup_delete_ne m ty ty') by assumption.
           now rewrite Hs, lookup_empty.
      * rewrite decide_False by tauto. now rewrite lookup_delete_ne.
    + unfold LookupRecord. cbn [records].
      destruct (decide (domain = domain')) as [<-|Hd].
      * rewrite lookup_insert_eq, E.
        destruct (decide (ty = ty')) as [<-|Ht].
        -- rewrite decide_True by auto. apply lookup_delete_eq.
        -- rewrite decide_False by tauto. now apply lookup_delete_ne.
      * rewrite decide_False by tauto. now rewrite lookup_insert_ne.
  - destruct (decide (domain = domain' /\ ty = ty')) as [[<- <-]|_]; [|reflexivity].
    unfold LookupRecord. now rewrite E.
Qed.

Lemma NewRecordStore_noEmptyDomain : noEmptyDomain NewRecordStore.
Proof.
  intros domain m. unfold NewRecordStore. cbn [records].
  repeat (rewrite lookup_insert; case_decide;
          [ intros [= <-]; apply insert_non_empty | ]).
  rewrite lookup_empty. discriminate.
Qed.

(** X3. The table never keeps a domain without records: when no domain
    of a table has an empty record map, none has after [AddRecord] and
    none has after [RemoveRecord], which drops a domain with its last
    record. *)
Theorem store_keeps_no_empty_domain (rs : RecordStore) :
  noEmptyDomain rs ->
  (forall domain ty data, noEmptyDomain (AddRecord rs domain ty data))
  /\ (forall domain ty, noEmptyDomain (RemoveRecord rs domain ty)).
Proof.
  intros Hrs. split.
  - intros domain ty data d m. unfold AddRecord. cbn [records].
    destruct (decide (domain = d)) as [<-|Hd].
    + rewrite lookup_insert_eq. intros [= <-]. apply insert_non_empty.
    + rewrite lookup_insert_ne by assumption.
      destruct (records rs !! domain); [apply Hrs|].
      rewrite lookup_insert_ne by assumption. apply Hrs.
  - intros domain ty d m. unfold RemoveRecord.
    destruct (records rs !! domain) as [m0|] eqn:E; [|apply Hrs].
    destruct (decide (size (delete ty m0) = 0%nat)) as [Hs|Hs]; cbn [records].
    + destruct (decide (domain = d)) as [<-|Hd].
      * now rewrite lookup_delete_eq.
      * rewrite lookup_delete_ne by assumption. apply Hrs.
    + destruct (decide (domain = d)) as [<-|Hd].
      * rewrite lookup_insert_eq. intros [= <-] He. apply Hs.
        now rewrite He, map_size_empty.
      * rewrite lookup_insert_ne by assumption. apply Hrs.
Qed.

Lemma store_keeps_no_empty_domain_witness :
  (forall domain ty data, noEmptyDomain (AddRecord NewRecordStore domain ty data))
  /\ (forall domain ty, noEmptyDomain (RemoveRecord NewRecordStore domain ty)).
Proof.
  exact (store_keeps_no_empty_domain NewRecordStore NewRecordStore_noEmptyDomain).
Defined.

(** X4. Removing a record just added, where there was none before, gives
    the table back as it was. *)
Theorem RemoveRecord_AddRecord (rs : RecordStore) (domain : string) (ty : Z)
    (data : list byte) :
  noEmptyDomain rs ->
  LookupRecord rs domain ty = None ->
  RemoveRecord (AddRecord rs domain ty data) domain ty = rs.
Proof.
  intros Hrs Hnone. destruct rs as [recs]. unfold LookupRecord in Hnone.
  unfold RemoveRecord, AddRecord. cbn [records] in *.
  rewrite lookup_insert_eq.
  destruct (recs !! domain) as [m|] eqn:E.
  - rewrite E. change (default ∅ (Some m)) with m.
    rewrite delete_insert_eq, delete_id by assumption.
    destruct (decide (size m = 0%nat)) as [Hs|Hs].
    + apply map_size_empty_iff in Hs. now apply (Hrs domain m) in Hs.
    + f_equal. rewrite insert_insert_eq. now apply insert_id.
  - rewrite lookup_insert_eq.
    change (default ∅ (Some ∅)) with (∅ : gmap Z (list byte)).
    rewrite delete_insert_eq, delete_empty.
    rewrite decide_True by apply map_size_empty.
    f_equal. rewrite !delete_insert_eq. now apply delete_id.
Qed.

Lemma RemoveRecord_AddRecord_witness :
  RemoveRecord (AddRecord NewRecordStore "new.example.com" TYPE_A (bytes [192; 168; 1; 100]))
    "new.example.com" TYPE_A
  = NewRecordStore.
Proof.
  apply (RemoveRecord_AddRecord NewRecordStore "new.example.com" TYPE_A).
  - exact NewRecordStore_noEmptyDomain.
  - vm_compute. reflexivity.
Defined.

(** ** parser.go: what the decoder never does *)

Lemma be16_in_range (data : list byte) (i : Z) :
  0 <= i -> i + 1 < len data -> exists v, be16 data i = Some v.
Proof.
  intros H0 H1. unfold be16.
  destruct (index_in_range data i) as [hi ->]; [lia|].
  destruct (index_in_range data (i + 1)) as [lo ->]; [lia|]. eauto.
Qed.

(** From an offset that is not negative the label loop reads inside the
    buffer only, and a name it returns ends after the offset it started
    from and inside the buffer. *)
Lemma parseDomainName_from_safe (data : list byte) (fuel : nat) :
  forall labels offset r,
    0 <= offset ->
    parseDomainName_from fuel data labels offset = Some r ->
    match r with
    | Ok (_, newOffset) => offset < newOffset <= len data
    | Err _ => True
    | Panic => False
    end.
Proof.
  induction fuel as [|fuel IH]; intros labels offset r H0 H; [discriminate|].
  cbn [parseDomainName_from] in H.
  destruct (Z.leb_spec (len data) offset) as [|Hin]; [now inversion H|].
  destruct (index_in_range data offset) as [b Hb]; [lia|]. rewrite Hb in H.
  cbv zeta in H. pose proof (u8_range b) as Hu.
  destruct (Z.eqb_spec (u8 b) 0) as [|Hnz].
  { inversion H; subst. destruct labels; cbn; lia. }
  destruct (Z.land (u8 b) 192 =? 192).
  - destruct (Z.leb_spec (len data) (offset + 1)) as [|Hin1]; [now inversion H|].
    destruct (index_in_range data (offset + 1)) as [b1 Hb1]; [lia|]. rewrite Hb1 in H.
    destruct (parseDomainName_from fuel data []
                (Z.lor (Z.shiftl (Z.land (u8 b) 63) 8) (u8 b1))) as [r'|] eqn:E;
      [|discriminate].
    apply IH in E; [|apply pointer_nonneg].
    destruct r' as [[name off]|e|]; [| now inversion H | contradiction].
    inversion H; subst.
    destruct (labels ++ Strings.Split name "."); cbn; lia.
  - destruct (Z.ltb_spec (len data) (offset + u8 b + 1)) as [|Hfit]; [now inversion H|].
    apply IH in H; [|lia]. destruct r as [[name off]|e|]; [lia | exact I | contradiction].
Qed.

Lemma parseQuestions_safe (data : list byte) (fuel : nat) (offset : Z)
    (r : outcome (DNSQuestion * Z)) :
  0 <= offset ->
  parseQuestions fuel data offset = Some r ->
  match r with
  | Ok (_, newOffset) => offset + 4 < newOffset <= len data
  | Err _ => True
  | Panic => False
  end.
Proof.
  intros H0. unfold parseQuestions, parseDomainName.
  destruct (parseDomainName_from fuel data [] offset) as [r'|] eqn:E; [|discriminate].
  apply parseDomainName_from_safe in E; [|assumption].
  destruct r' as [[name off]|e|]; [| intros [= <-]; exact I | contradiction].
  destruct (Z.ltb_spec (len data) (off + 4)); [intros [= <-]; exact I|].
  destruct (be16_in_range data off) as [ty ->]; [lia..|].
  destruct (be16_in_range data (off + 2)) as [cl ->]; [lia..|].
  intros [= <-]. lia.
Qed.

Lemma parseQuestionList_safe (data : list byte) (fuel n : nat) :
  forall offset acc,
    0 <= offset ->
    parseQuestionList fuel n data offset acc <> Some Panic.
Proof.
  induction n as [|n IH]; intros offset acc H0; cbn [parseQuestionList]; [discriminate|].
  destruct (parseQuestions fuel data offset) as [r|] eqn:E; [|discriminate].
  apply parseQuestions_safe in E; [|assumption].
  destruct r as [[q off]|e|]; [apply IH; lia | discriminate | contradiction].
Qed.

Lemma ParseDNSMessage_never_panics_aux (fuel : nat) (data : list byte) :
  ParseDNSMessage fuel data <> Some Panic.
Proof.
  unfold ParseDNSMessage, MIN_MESSAGE_SIZE.
  destruct (Z.ltb_spec (len data) 12); [discriminate|].
  destruct (be16_in_range data 0) as [id ->]; [lia..|].
  destruct (be16_in_range data 2) as [fl ->]; [lia..|].
  destruct (be16_in_range data 4) as [qd ->]; [lia..|].
  destruct (be16_in_range data 6) as [an ->]; [lia..|].
  destruct (be16_in_range data 8) as [ns ->]; [lia..|].
  destruct (be16_in_range data 10) as [ar ->]; [lia..|].
  pose proof (parseQuestionList_safe data fuel (Z.to_nat qd) 12 []) as Hsafe.
  destruct (parseQuestionList fuel (Z.to_nat qd) data 12 []) as [[qs|e|]|];
    try discriminate.
  exfalso. apply Hsafe; [lia | reflexivity].
Qed.

(** The decoder returns when the name decoder does: more budget never
    changes a result, so the largest budget a question needs serves all
    of them. *)
Lemma parseQuestions_more_fuel (data : list byte) (fuel : nat) (offset : Z)
    (r : outcome (DNSQuestion * Z)) :
  parseQuestions fuel data offset = Some r ->
  forall fuel', (fuel <= fuel')%nat -> parseQuestions fuel' data offset = Some r.
Proof.
  unfold parseQuestions, parseDomainName. intros H fuel' Hle.
  destruct (parseDomainName_from fuel data [] offset) as [r'|] eqn:E; [|discriminate].
  rewrite (parseDomainName_from_more_fuel data fuel [] offset r' E fuel' Hle).
  exact H.
Qed.

Lemma parseQuestionList_more_fuel (data : list byte) (fuel fuel' n : nat) :
  (fuel <= fuel')%nat ->
  forall offset acc r,
    parseQuestionList fuel n data offset acc = Some r ->
    parseQuestionList fuel' n data offset acc = Some r.
Proof.
  intros Hle. induction n as [|n IH]; intros offset acc r H;
    cbn [parseQuestionList] in *; [assumption|].
  destruct (parseQuestions fuel data offset) as [r'|] eqn:E; [|discriminate].
  rewrite (parseQuestions_more_fuel data fuel offset r' E fuel' Hle).
  destruct r' as [[q off]|e|]; [now apply IH | assumption | assumption].
Qed.

Lemma no_revisit_finite_chains (data : list byte) (offset : Z) :
  ~ revisits data offset -> Acc (fun t o => hop data o t) offset.
Proof.
  intros Hno. apply (finite_chains_of_no_cycle data (S (length data)) []).
  - constructor.
  - intros v Hv. inversion Hv.
  - intros v Hv. inversion Hv.
  - intros t Hr Hc. apply Hno. exists t. auto.
  - cbn. lia.
Qed.

Lemma parseQuestions_returns (data : list byte) (offset : Z) :
  0 <= offset ->
  ~ revisits data offset ->
  exists fuel r, parseQuestions fuel data offset = Some r.
Proof.
  intros H0 Hno.
  destruct (returns_of_finite_chains data offset
              (no_revisit_finite_chains data offset Hno) H0 [])
    as (fuel & r & Hr & _).
  exists fuel. unfold parseQuestions, parseDomainName. rewrite Hr.
  destruct r as [[name off]|e|]; eauto.
  destruct (len data <? off + 4); eauto.
  destruct (be16 data off), (be16 data (off + 2)); eauto.
Qed.

Lemma parseQuestionList_returns (data : list byte) :
  (forall offset, 0 <= offset -> ~ revisits data offset) ->
  forall n offset acc,
    0 <= offset ->
    exists fuel r, parseQuestionList fuel n data offset acc = Some r.
Proof.
  intros Hno. induction n as [|n IH]; intros offset acc H0.
  - exists O. eexists. reflexivity.
  - destruct (parseQuestions_returns data offset H0 (Hno _ H0)) as (f1 & r1 & H1).
    pose proof (parseQuestions_safe data f1 offset r1 H0 H1) as Hs.
    destruct r1 as [[q off]|e|].
    + destruct (IH off (acc ++ [q])) as (f2 & r2 & H2); [lia|].
      exists (Nat.max f1 f2), r2. cbn [parseQuestionList].
      rewrite (parseQuestions_more_fuel data f1 offset _ H1 (Nat.max f1 f2)) by lia.
      apply (parseQuestionList_more_fuel data f2 (Nat.max f1 f2)); [lia | assumption].
    + exists f1, (Err e). cbn [parseQuestionList]. now rewrite H1.
    + contradiction.
Qed.

Lemma ParseDNSMessage_returns (data : list byte) :
  (forall offset, 0 <= offset -> ~ revisits data offset) ->
  exists fuel,
    (exists msg, ParseDNSMessage fuel data = Some (Ok msg))
    \/ (exists e, ParseDNSMessage fuel data = Some (Err e)).
Proof.
  intros Hno. unfold ParseDNSMessage, MIN_MESSAGE_SIZE.
  destruct (Z.ltb_spec (len data) 12); [exists O; right; eauto|].
  destruct (be16_in_range data 0) as [id ->]; [lia..|].
  destruct (be16_in_range data 2) as [fl ->]; [lia..|].
  destruct (be16_in_range data 4) as [qd ->]; [lia..|].
  destruct (be16_in_range data 6) as [an ->]; [lia..|].
  destruct (be16_in_range data 8) as [ns ->]; [lia..|].
  destruct (be16_in_range data 10) as [ar ->]; [lia..|].
  destruct (parseQuestionList_returns data Hno (Z.to_nat qd) 12 []) as (fuel & r & Hr);
    [lia|].
  exists fuel. rewrite Hr.
  destruct r as [qs|e|]; [left; eauto | right; eauto |].
  exfalso. apply (parseQuestionList_safe data fuel (Z.to_nat qd) 12 []); [lia | assumption].
Qed.

(** A buffer without a pointer byte has no hop, and so no revisit. *)
Lemma pointerFree_no_revisit (data : list byte) :
  pointerFree data = true ->
  forall offset, ~ revisits data offset.
Proof.
  intros Hfree.
  assert (Hhop : forall o t, ~ hop data o t).
  { intros o t Hh. induction Hh as [o b b1 Hb Hp _ | o b t _ _ _ _ _ IH]; [|exact IH].
    unfold pointerFree in Hfree. rewrite forallb_forall in Hfree.
    assert (Hin : In b data).
    { unfold index in Hb. destruct (o <? 0); [discriminate|].
      apply list_elem_of_In. eapply list_elem_of_lookup_2. exact Hb. }
    specialize (Hfree b Hin). rewrite Hp in Hfree. discriminate. }
  intros offset (t & _ & Hc).
  destruct Hc as [x y Hh | x y z Hh _]; exact (Hhop _ _ Hh).
Qed.

(** When the name of the first question revisits an offset, the decoder
    is still running whatever the budget. *)
Lemma ParseDNSMessage_waits_for_first_name (data : list byte) (qd : Z) :
  12 <= len data ->
  be16 data 4 = Some qd ->
  0 < qd ->
  revisits data 12 ->
  forall fuel, ParseDNSMessage fuel data = None.
Proof.
  intros Hlen Hqd Hpos Hrev fuel. unfold ParseDNSMessage, MIN_MESSAGE_SIZE.
  destruct (Z.ltb_spec (len data) 12); [lia|].
  destruct (be16_in_range data 0) as [id ->]; [lia..|].
  destruct (be16_in_range data 2) as [fl ->]; [lia..|].
  rewrite Hqd.
  destruct (be16_in_range data 6) as [an ->]; [lia..|].
  destruct (be16_in_range data 8) as [ns ->]; [lia..|].
  destruct (be16_in_range data 10) as [ar ->]; [lia..|].
  destruct (Z.to_nat qd) as [|n] eqn:En; [lia|].
  cbn [parseQuestionList]. unfold parseQuestions.
  now rewrite (revisit_never_returns data 12 Hrev fuel).
Qed.

(** X5. [ParseDNSMessage] never indexes outside its buffer: whatever the
    datagram and the budget, its result is not a panic, and neither is
    that of decoding a question or a name from an offset that is not
    negative. It does return, with a message or with an error, on every
    datagram in which following the pointers never comes back to an
    offset; it does not return when the name of an announced first
    question does come back to one. *)
Theorem ParseDNSMessage_never_panics (data : list byte) :
  (forall fuel, ParseDNSMessage fuel data <> Some Panic)
  /\ (forall fuel offset,
        0 <= offset ->
        parseQuestions fuel data offset <> Some Panic
        /\ parseDomainName fuel data offset <> Some Panic)
  /\ ((forall offset, 0 <= offset -> ~ revisits data offset) ->
      exists fuel,
        (exists msg, ParseDNSMessage fuel data = Some (Ok msg))
        \/ (exists e, ParseDNSMessage fuel data = Some (Err e)))
  /\ (forall qd,
        12 <= len data ->
        be16 data 4 = Some qd ->
        0 < qd ->
        revisits data 12 ->
        forall fuel, ParseDNSMessage fuel data = None).
Proof.
  split; [intros fuel; apply ParseDNSMessage_never_panics_aux|].
  split; [|split; [apply ParseDNSMessage_returns
                  | apply ParseDNSMessage_waits_for_first_name]].
  intros fuel offset H0. split; intros H.
  - exact (parseQuestions_safe data fuel offset _ H0 H).
  - exact (parseDomainName_from_safe data fuel [] offset _ H0 H).
Qed.

(** The encoded query of scenario A has no pointer and is decoded; the
    query whose name points at itself is not, with a budget of a
    thousand steps as with any other. *)
Lemma ParseDNSMessage_never_panics_witness :
  (exists fuel,
     (exists msg, ParseDNSMessage fuel (EncodeDNSMessage queryA) = Some (Ok msg))
     \/ (exists e, ParseDNSMessage fuel (EncodeDNSMessage queryA) = Some (Err e)))
  /\ ParseDNSMessage 1000 selfPointerQuery = None
  /\ parseQuestions 4 compressed 5 <> Some Panic
  /\ parseDomainName 4 compressed 5 <> Some Panic.
Proof.
  split; [|split].
  - apply (proj1 (proj2 (proj2 (ParseDNSMessage_never_panics (EncodeDNSMessage queryA))))).
    intros offset _. apply pointerFree_no_revisit. vm_compute. reflexivity.
  - apply (proj2 (proj2 (proj2 (ParseDNSMessage_never_panics selfPointerQuery))) 1).
    + vm_compute. discriminate.
    + vm_compute. reflexivity.
    + lia.
    + exists 12. split; [constructor|]. apply tc_once.
      exact (hop_pointer selfPointerQuery 12 xc0 x0c eq_refl eq_refl eq_refl).
  - apply (proj1 (proj2 (ParseDNSMessage_never_panics compressed)) 4%nat 5). lia.
Defined.

(** X6. A name decoded from an offset that is not negative ends after
    that offset and inside the buffer, and a question decoded there takes
    at least five bytes: the decoder always moves forward. *)
Theorem decoder_moves_forward (fuel : nat) (data : list byte) (offset : Z) :
  0 <= offset ->
  (forall name newOffset,
     parseDomainName fuel data offset = Some (Ok (name, newOffset)) ->
     offset < newOffset <= len data)
  /\ (forall question newOffset,
        parseQuestions fuel data offset = Some (Ok (question, newOffset)) ->
        offset + 4 < newOffset <= len data).
Proof.
  intros H0. split.
  - intros name newOffset H.
    exact (parseDomainName_from_safe data fuel [] offset _ H0 H).
  - intros question newOffset H.
    exact (parseQuestions_safe data fuel offset _ H0 H).
Qed.

Lemma decoder_moves_forward_witness :
  (forall name newOffset,
     parseDomainName 4 compressed 5 = Some (Ok (name, newOffset)) ->
     5 < newOffset <= len compressed)
  /\ (forall question newOffset,
        parseQuestions 4 compressed 5 = Some (Ok (question, newOffset)) ->
        5 + 4 < newOffset <= len compressed).
Proof.
  apply (decoder_moves_forward 4 compressed 5). lia.
Defined.

(** ** parser.go: bytes behind the questions *)

Lemma index_app_l (data extra : list byte) (i : Z) (b : byte) :
  index data i = Some b -> index (data ++ extra) i = Some b.
Proof.
  unfold index. destruct (i <? 0); [discriminate|].
  intros H. now apply lookup_app_l_Some.
Qed.

Lemma slice_app_l (data extra : list byte) (lo hi : Z) :
  0 <= lo -> lo <= hi -> hi <= len data ->
  slice (data ++ extra) lo hi = slice data lo hi.
Proof.
  intros H0 H1 H2. unfold slice, len in *.
  rewrite drop_app_le by lia.
  apply take_app_le. rewrite length_drop. lia.
Qed.

Lemma be16_app_l (data extra : list byte) (i v : Z) :
  be16 data i = Some v -> be16 (data ++ extra) i = Some v.
Proof.
  unfold be16.
  destruct (index data i) as [hi|] eqn:E1; [|discriminate].
  destruct (index data (i + 1)) as [lo|] eqn:E2; [|discriminate].
  now rewrite (index_app_l _ extra _ _ E1), (index_app_l _ extra _ _ E2).
Qed.

Lemma parseDomainName_from_app (data extra : list byte) (fuel : nat) :
  forall labels offset name newOffset,
    parseDomainName_from fuel data labels offset = Some (Ok (name, newOffset)) ->
    parseDomainName_from fuel (data ++ extra) labels offset = Some (Ok (name, newOffset)).
Proof.
  induction fuel as [|fuel IH]; intros labels offset name newOffset H; [discriminate|].
  cbn [parseDomainName_from] in *.
  pose proof (len_nonneg extra) as Hex.
  destruct (Z.leb_spec (len data) offset) as [|Hin]; [discriminate|].
  destruct (Z.leb_spec (len (data ++ extra)) offset) as [Hle|_];
    [rewrite len_app in Hle; lia|].
  destruct (index data offset) as [b|] eqn:Hb; [|discriminate].
  rewrite (index_app_l _ extra _ _ Hb). cbv zeta in *.
  apply index_Some_range in Hb as Hr. pose proof (u8_range b) as Hu.
  destruct (u8 b =? 0); [assumption|].
  destruct (Z.land (u8 b) 192 =? 192).
  - destruct (Z.leb_spec (len data) (offset + 1)) as [|Hin1]; [discriminate|].
    destruct (Z.leb_spec (len (data ++ extra)) (offset + 1)) as [Hle|_];
      [rewrite len_app in Hle; lia|].
    destruct (index data (offset + 1)) as [b1|] eqn:Hb1; [|discriminate].
    rewrite (index_app_l _ extra _ _ Hb1).
    destruct (parseDomainName_from fuel data []
                (Z.lor (Z.shiftl (Z.land (u8 b) 63) 8) (u8 b1))) as [[[nm off]|e|]|] eqn:E;
      try discriminate.
    now rewrite (IH _ _ _ _ E).
  - destruct (Z.ltb_spec (len data) (offset + u8 b + 1)) as [|Hfit]; [discriminate|].
    destruct (Z.ltb_spec (len (data ++ extra)) (offset + u8 b + 1)) as [Hlt|_];
      [rewrite len_app in Hlt; lia|].
    rewrite slice_app_l by lia. now apply IH.
Qed.

Lemma parseQuestionList_app (data extra : list byte) (fuel n : nat) :
  forall offset acc qs,
    0 <= offset ->
    parseQuestionList fuel n data offset acc = Some (Ok qs) ->
    parseQuestionList fuel n (data ++ extra) offset acc = Some (Ok qs).
Proof.
  induction n as [|n IH]; intros offset acc qs H0; cbn [parseQuestionList]; [auto|].
  unfold parseQuestions, parseDomainName.
  destruct (parseDomainName_from fuel data [] offset) as [[[name off]|e|]|] eqn:E;
    try discriminate.
  rewrite (parseDomainName_from_app _ extra _ _ _ _ _ E).
  apply parseDomainName_from_safe in E; [|assumption].
  pose proof (len_nonneg extra) as Hex.
  destruct (Z.ltb_spec (len data) (off + 4)); [discriminate|].
  destruct (Z.ltb_spec (len (data ++ extra)) (off + 4)) as [Hlt|_];
    [rewrite len_app in Hlt; lia|].
  destruct (be16 data off) as [ty|] eqn:Et; [|discriminate].
  destruct (be16 data (off + 2)) as [cl|] eqn:Ec; [|discriminate].
  rewrite (be16_app_l _ extra _ _ Et), (be16_app_l _ extra _ _ Ec).
  apply IH. lia.
Qed.

(** X7. What follows the last question does not matter to the decoder:
    when a datagram decodes to a message, the datagram followed by any
    bytes (answer records, say) decodes to the same message. *)
Theorem ParseDNSMessage_ignores_trailing_bytes (fuel : nat)
    (data extra : list byte) (msg : DNSMessage) :
  ParseDNSMessage fuel data = Some (Ok msg) ->
  ParseDNSMessage fuel (data ++ extra) = Some (Ok msg).
Proof.
  unfold ParseDNSMessage, MIN_MESSAGE_SIZE. pose proof (len_nonneg extra) as Hex.
  destruct (Z.ltb_spec (len data) 12); [discriminate|].
  destruct (Z.ltb_spec (len (data ++ extra)) 12) as [Hlt|_];
    [rewrite len_app in Hlt; lia|].
  destruct (be16 data 0) as [id|] eqn:E0; [|discriminate].
  destruct (be16 data 2) as [fl|] eqn:E2; [|discriminate].
  destruct (be16 data 4) as [qd|] eqn:E4; [|discriminate].
  destruct (be16 data 6) as [an|] eqn:E6; [|discriminate].
  destruct (be16 data 8) as [ns|] eqn:E8; [|discriminate].
  destruct (be16 data 10) as [ar|] eqn:E10; [|discriminate].
  rewrite (be16_app_l _ extra _ _ E0), (be16_app_l _ extra _ _ E2),
    (be16_app_l _ extra _ _ E4), (be16_app_l _ extra _ _ E6),
    (be16_app_l _ extra _ _ E8), (be16_app_l _ extra _ _ E10).
  destruct (parseQuestionList fuel (Z.to_nat qd) data 12 []) as [[qs|e|]|] eqn:E;
    try discriminate.
  assert (H12 : 0 <= 12) by lia.
  now rewrite (parseQuestionList_app data extra fuel _ 12 [] qs H12 E).
Qed.

(** The encoded response of the encoder's test is its encoded header and
    question followed by the answer, and decodes like them. *)
Lemma ParseDNSMessage_ignores_trailing_bytes_witness :
  ParseDNSMessage 3
    (EncodeDNSMessage (mkMessage (Header responseTest) (Questions responseTest) [])
       ++ encodeAnswer [] (mkRR "test.com" 1 1 300 (bytes [10; 0; 0; 1])))
  = Some (Ok (mkMessage (Header responseTest) (Questions responseTest) [])).
Proof.
  apply ParseDNSMessage_ignores_trailing_bytes. vm_compute. reflexivity.
Defined.

(** ** parser.go: errors on pointers and on a bare header *)

(** X8. How a bad compression pointer fails: one whose second byte is
    missing gives the "invalid compression pointer" error, one whose
    target lies at or behind the end of the buffer gives the "unexpected
    end of data" error, and an error met while decoding at the target is
    the error of the call. *)
Theorem pointer_errors (fuel : nat) (data : list byte) (labels : list string)
    (offset : Z) (b : byte) :
  index data offset = Some b ->
  Z.land (u8 b) 0xC0 = 0xC0 ->
  (len data <= offset + 1 ->
   parseDomainName_from (S fuel) data labels offset = Some (Err InvalidPointer))
  /\ (forall b1,
        index data (offset + 1) = Some b1 ->
        (len data <= Z.lor (Z.shiftl (Z.land (u8 b) 0x3F) 8) (u8 b1) ->
         parseDomainName_from (S (S fuel)) data labels offset = Some (Err UnexpectedEnd))
        /\ (forall e,
              parseDomainName fuel data (Z.lor (Z.shiftl (Z.land (u8 b) 0x3F) 8) (u8 b1))
              = Some (Err e) ->
              parseDomainName_from (S fuel) data labels offset = Some (Err e))).
Proof.
  intros Hb Hp. split.
  - intros Hcut. now apply parseDomainName_from_pointer_cut with (b := b).
  - intros b1 Hb1. split.
    + intros Hfar.
      rewrite (parseDomainName_from_pointer (S fuel) data labels offset b Hb b1 Hp Hb1).
      now rewrite parseDomainName_from_end.
    + intros e He. unfold parseDomainName in He.
      rewrite (parseDomainName_from_pointer fuel data labels offset b Hb b1 Hp Hb1).
      now rewrite He.
Qed.

(** A pointer cut after its first byte, and a pointer to offset 255 of a
    buffer of two bytes. *)
Lemma pointer_errors_witness :
  parseDomainName_from 1 [xc0] [] 0 = Some (Err InvalidPointer)
  /\ parseDomainName_from 2 [xc0; xff] [] 0 = Some (Err UnexpectedEnd).
Proof.
  split.
  - apply (proj1 (pointer_errors 0 [xc0] [] 0 xc0 eq_refl eq_refl)).
    vm_compute. discriminate.
  - apply (proj1 (proj2 (pointer_errors 0 [xc0; xff] [] 0 xc0 eq_refl eq_refl) xff eq_refl)).
    vm_compute. discriminate.
Defined.

(** X9. A datagram of exactly the twelve header bytes decodes, to a
    message without questions, when its question count is zero, and
    fails with the "unexpected end of data" error when it announces a
    question. *)
Theorem bare_header (fuel : nat) (data : list byte) (qd : Z) :
  len data = 12 ->
  be16 data 4 = Some qd ->
  (qd = 0 ->
   exists h, ParseDNSMessage fuel data = Some (Ok (mkMessage h [] []))
             /\ QDCount h = 0)
  /\ (1 <= qd ->
      ParseDNSMessage (S fuel) data = Some (Err UnexpectedEnd)).
Proof.
  intros Hlen Hqd. unfold ParseDNSMessage, MIN_MESSAGE_SIZE.
  destruct (Z.ltb_spec (len data) 12); [lia|].
  destruct (be16_in_range data 0) as [id ->]; [lia..|].
  destruct (be16_in_range data 2) as [fl ->]; [lia..|].
  rewrite Hqd.
  destruct (be16_in_range data 6) as [an ->]; [lia..|].
  destruct (be16_in_range data 8) as [ns ->]; [lia..|].
  destruct (be16_in_range data 10) as [ar ->]; [lia..|].
  split.
  - intros ->. cbn. eauto.
  - intros Hpos. destruct (Z.to_nat qd) as [|n] eqn:En; [lia|].
    cbn [parseQuestionList]. unfold parseQuestions, parseDomainName.
    rewrite parseDomainName_from_end by lia. reflexivity.
Qed.

(** The two twelve-byte headers of the unit tests' kind. *)
Lemma bare_header_witness :
  (exists h, ParseDNSMessage 0 (bytes [0x12; 0x34; 1; 0; 0; 0; 0; 0; 0; 0; 0; 0])
             = Some (Ok (mkMessage h [] [])) /\ QDCount h = 0)
  /\ ParseDNSMessage 1 (bytes [0x12; 0x34; 1; 0; 0; 1; 0; 0; 0; 0; 0; 0])
     = Some (Err UnexpectedEnd).
Proof.
  split.
  - apply (proj1 (bare_header 0 (bytes [0x12; 0x34; 1; 0; 0; 0; 0; 0; 0; 0; 0; 0]) 0
                    eq_refl eq_refl)).
    reflexivity.
  - apply (proj2 (bare_header 0 (bytes [0x12; 0x34; 1; 0; 0; 1; 0; 0; 0; 0; 0; 0]) 1
                    eq_refl eq_refl)).
    lia.
Defined.

(** ** The encoder and the decoder on names *)

(** The kept labels of a name up to its first empty one are wire labels,
    and what the encoder writes for the name is their run, a zero byte
    and, behind an empty label, more. *)
Lemma encoded_labels_shape (ls : list string) :
  exists good rest,
    Forall goodLabel good
    /\ (length good <= length ls)%nat
    /\ concat (map wireLabel (List.filter shortLabel ls)) ++ [x00]
       = concat (map wireLabel good) ++ x00 :: rest.
Proof.
  induction ls as [|l ls (good & rest & Hg & Hl & E)].
  - exists [], []. repeat split; [constructor | reflexivity].
  - destruct (String.eqb_spec l "") as [->|Hne].
    + exists [], (concat (map wireLabel (List.filter shortLabel ls)) ++ [x00]).
      repeat split; [constructor | cbn; lia].
    + cbn [List.filter]. destruct (shortLabel l) eqn:Hs.
      * exists (l :: good), rest. repeat split.
        -- constructor; [|assumption]. unfold shortLabel in Hs.
           apply Z.leb_le in Hs. unfold goodLabel.
           destruct l; [congruence|]. cbn [String.length] in *. lia.
        -- cbn [length]. lia.
        -- cbn [map concat]. rewrite <- !app_assoc. now rewrite E.
      * exists good, rest. repeat split; [assumption | cbn [length]; lia | assumption].
Qed.

(** X10. Whatever the name, the decoder accepts what [EncodeDomainName]
    writes for it: decoding the encoding from its first byte returns a
    name, without error, and ends inside the encoding. *)
Theorem encoded_name_decodes (name : string) (fuel : nat) :
  (length (Strings.Split name ".") < fuel)%nat ->
  exists decoded newOffset,
    parseDomainName fuel (EncodeDomainName name) 0 = Some (Ok (decoded, newOffset))
    /\ 0 < newOffset <= len (EncodeDomainName name).
Proof.
  intros Hfuel. unfold EncodeDomainName.
  destruct (String.eqb name "").
  - destruct fuel as [|fuel]; [lia|]. exists "."%string, 1. split; [reflexivity|].
    change (len [x00]) with 1. lia.
  - rewrite fold_encodeLabel. cbn [app].
    destruct (encoded_labels_shape (Strings.Split name ".")) as (good & rest & Hg & Hl & E).
    rewrite E.
    destruct (finishName_Ok ([] ++ good)
                (len (@nil byte) + len (concat (map wireLabel good)) + 1))
      as [decoded Hd].
    exists decoded, (len (@nil byte) + len (concat (map wireLabel good)) + 1).
    unfold parseDomainName. split.
    + change 0 with (len (@nil byte)) at 1.
      change (concat (map wireLabel good) ++ x00 :: rest)
        with ([] ++ concat (map wireLabel good) ++ x00 :: rest).
      rewrite parseDomainName_from_wire by (try assumption; lia).
      now rewrite Hd.
    + rewrite len_app, len_cons. change (len []) with 0.
      pose proof (len_nonneg rest). pose proof (len_nonneg (concat (map wireLabel good))).
      lia.
Qed.

(** The name with a label of 64 bytes between two short ones: the long
    label is not written, and what is written decodes. *)
Lemma encoded_name_decodes_witness :
  exists decoded newOffset,
    parseDomainName 4
      (EncodeDomainName
         "a.0123456789012345678901234567890123456789012345678901234567890123.b") 0
    = Some (Ok (decoded, newOffset))
    /\ 0 < newOffset
       <= len (EncodeDomainName
                 "a.0123456789012345678901234567890123456789012345678901234567890123.b").
Proof.
  apply encoded_name_decodes. vm_compute. lia.
Defined.

(** X11. A name made of labels of 1 to 63 bytes comes back from its
    encoding wherever the encoding stands in a buffer, and the decoder
    ends right behind it. *)
Theorem name_round_trip (name : string) (pre post : list byte) (fuel : nat) :
  wellFormedName name ->
  (length (Strings.Split name ".") < fuel)%nat ->
  parseDomainName fuel (pre ++ EncodeDomainName name ++ post) (len pre)
  = Some (Ok (name, len pre + len (EncodeDomainName name))).
Proof.
  intros Hwf Hfuel. now apply parseDomainName_wire.
Qed.

Lemma localhost_wellFormed : wellFormedName "localhost".
Proof. unfold wellFormedName. cbn. repeat constructor; cbn; lia. Qed.

Lemma name_round_trip_witness :
  parseDomainName 2 (bytes [0xAB; 0xCD] ++ EncodeDomainName "localhost" ++ bytes [0; 1]) 2
  = Some (Ok ("localhost"%string, 2 + len (EncodeDomainName "localhost"))).
Proof.
  apply (name_round_trip "localhost" (bytes [0xAB; 0xCD]) (bytes [0; 1]) 2
           localhost_wellFormed).
  vm_compute. lia.
Defined.

Lemma Split_total_length (s : string) (sep : ascii) :
  list_sum (map (fun l => S (String.length l)) (Strings.Split s sep))
  = S (String.length s).
Proof.
  induction s as [|c rest IH]; [reflexivity|].
  cbn [Strings.Split]. destruct (Ascii.eqb c sep).
  - cbn [map]. change (list_sum (?a :: ?l)) with (a + list_sum l)%nat.
    rewrite IH. reflexivity.
  - destruct (Strings.Split rest sep) as [|p ps] eqn:E.
    + now apply Split_nonempty in E.
    + cbn [map] in *. change (list_sum (?a :: ?l)) with (a + list_sum l)%nat in *.
      cbn [String.length] in *. lia.
Qed.

Lemma len_kept_labels (ls : list string) :
  len (concat (map wireLabel (List.filter shortLabel ls)))
  <= Z.of_nat (list_sum (map (fun l => S (String.length l)) ls))
  /\ ((forall l, In l ls -> (String.length l <= 63)%nat) ->
      len (concat (map wireLabel (List.filter shortLabel ls)))
      = Z.of_nat (list_sum (map (fun l => S (String.length l)) ls))).
Proof.
  induction ls as [|l ls [IHle IHeq]]; [split; reflexivity|].
  cbn [List.filter map]. change (list_sum (?a :: ?l)) with (a + list_sum l)%nat.
  destruct (shortLabel l) eqn:Hs; unfold shortLabel in Hs.
  - cbn [map concat]. rewrite len_app, len_wireLabel. split; [lia|].
    intros Hall. rewrite IHeq; [lia|]. intros l' Hl'. apply Hall. now right.
  - apply Z.leb_gt in Hs. split; [lia|].
    intros Hall. specialize (Hall l (or_introl eq_refl)). lia.
Qed.

(** X12. The encoding of a name has at least one byte and at most two
    more than the name; it has exactly two more when the name is not
    empty and none of its labels is over 63 bytes. *)
Theorem EncodeDomainName_size (name : string) :
  1 <= len (EncodeDomainName name) <= Z.of_nat (String.length name) + 2
  /\ (name <> ""%string ->
      (forall l, In l (Strings.Split name ".") -> (String.length l <= 63)%nat) ->
      len (EncodeDomainName name) = Z.of_nat (String.length name) + 2).
Proof.
  unfold EncodeDomainName. destruct (String.eqb_spec name "") as [->|Hne].
  - split; [change (len [x00]) with 1; cbn [String.length]; lia | congruence].
  - rewrite fold_encodeLabel. cbn [app]. rewrite len_app. change (len [x00]) with 1.
    destruct (len_kept_labels (Strings.Split name ".")) as [Hle Heq].
    rewrite Split_total_length in *.
    pose proof (len_nonneg (concat (map wireLabel
                  (List.filter shortLabel (Strings.Split name "."))))).
    split; [lia|]. intros _ Hall. rewrite (Heq Hall). lia.
Qed.

Lemma EncodeDomainName_size_witness :
  len (EncodeDomainName "www.example.com") = Z.of_nat (String.length "www.example.com") + 2.
Proof.
  apply (proj2 (EncodeDomainName_size "www.example.com")).
  - discriminate.
  - cbn. intros l [<-|[<-|[<-|[]]]]; cbn; lia.
Defined.

(** ** parser.go: a name behind a compression pointer *)

(** The loop reads a run of wire labels and goes on with what follows. *)
Lemma parseDomainName_from_labels (ls : list string) :
  forall (pre rest : list byte) (acc : list string) (fuel : nat),
    Forall goodLabel ls ->
    parseDomainName_from (length ls + fuel) (pre ++ concat (map wireLabel ls) ++ rest)
      acc (len pre)
    = parseDomainName_from fuel (pre ++ concat (map wireLabel ls) ++ rest)
        (acc ++ ls) (len pre + len (concat (map wireLabel ls))).
Proof.
  induction ls as [|l ls IH]; intros pre rest acc fuel Hls.
  - cbn [length map concat Nat.add]. rewrite app_nil_r. change (len []) with 0.
    now rewrite Z.add_0_r.
  - inversion Hls as [|? ? Hl Hls']; subst.
    set (lb := to_byte (Z.of_nat (String.length l))).
    assert (Hu : u8 lb = Z.of_nat (String.length l)) by now apply wireLabel_length_byte.
    destruct Hl as [Hl1 Hl2].
    cbn [map concat length Nat.add]. unfold wireLabel at 1 3 5. fold lb.
    set (tail := concat (map wireLabel ls) ++ rest).
    replace (pre ++ ((lb :: list_byte_of_string l) ++ concat (map wireLabel ls)) ++ rest)
      with (pre ++ lb :: list_byte_of_string l ++ tail)
      by (subst tail; now rewrite <- !app_assoc).
    assert (Hidx : index (pre ++ lb :: list_byte_of_string l ++ tail) (len pre) = Some lb).
    { replace (len pre) with (len pre + 0) by lia. now rewrite index_app_r by lia. }
    rewrite parseDomainName_from_label with (b := lb); try assumption.
    + rewrite Hu.
      replace (pre ++ lb :: list_byte_of_string l ++ tail)
        with ((pre ++ [lb]) ++ list_byte_of_string l ++ tail)
        by now rewrite <- app_assoc.
      replace (len pre + 1) with (len (pre ++ [lb])) by (rewrite len_app; reflexivity).
      rewrite <- (len_list_byte_of_string l).
      rewrite slice_app, string_of_list_byte_of_string.
      replace (len pre + len (list_byte_of_string l) + 1)
        with (len (pre ++ lb :: list_byte_of_string l))
        by (rewrite len_app, len_cons; lia).
      replace ((pre ++ [lb]) ++ list_byte_of_string l ++ tail)
        with ((pre ++ lb :: list_byte_of_string l) ++ tail)
        by (rewrite <- !app_assoc; reflexivity).
      subst tail. rewrite IH by assumption.
      f_equal;
        first [ rewrite <- !app_assoc; reflexivity
              | repeat (rewrite len_app || rewrite len_cons); lia ].
    + lia.
    + apply small_not_pointer. lia.
    + rewrite Hu, len_app, len_cons, len_app, len_list_byte_of_string.
      pose proof (len_nonneg tail). lia.
Qed.

Lemma pointer_bits (n : nat) :
  (n < 64)%nat ->
  0 <= Z.lor 0xC0 (Z.of_nat n) < 256
  /\ Z.land (Z.lor 0xC0 (Z.of_nat n)) 0xC0 = 0xC0
  /\ Z.land (Z.lor 0xC0 (Z.of_nat n)) 0x3F = Z.of_nat n.
Proof.
  intros H. do 64 (destruct n as [|n]; [vm_compute; intuition discriminate|]). lia.
Qed.

(** The two bytes of [pointerTo p] are read as a pointer to [p]. *)
Lemma pointerTo_reads (p : Z) :
  0 <= p < 16384 ->
  exists hi lo,
    pointerTo p = [hi; lo]
    /\ Z.land (u8 hi) 0xC0 = 0xC0
    /\ Z.lor (Z.shiftl (Z.land (u8 hi) 0x3F) 8) (u8 lo) = p.
Proof.
  intros Hp. unfold pointerTo. eexists _, _. split; [reflexivity|].
  rewrite !u8_to_byte.
  assert (Hq : 0 <= Z.shiftr p 8 < 64).
  { rewrite Z.shiftr_div_pow2 by lia. change (2 ^ 8) with 256.
    split; [apply Z.div_pos; lia | apply Z.div_lt_upper_bound; lia]. }
  destruct (pointer_bits (Z.to_nat (Z.shiftr p 8))) as (Hr & H1 & H2); [lia|].
  rewrite Z2Nat.id in Hr, H1, H2 by lia.
  rewrite (Z.mod_small (Z.lor 192 (Z.shiftr p 8))) by assumption.
  split; [assumption|]. rewrite H2.
  rewrite <- (Z.mod_small (Z.shiftr p 8) 256) at 1 by lia.
  apply lor_shiftl_put16. lia.
Qed.

(** X13. Compression: in a buffer that holds the encoding of a name of
    labels of 1 to 63 bytes at an offset below 16384, labels followed by
    a pointer to that offset decode to the labels and the labels of the
    name, joined by dots, and the decoder ends behind the two pointer
    bytes; with no label before it, the pointer decodes to the name. *)
Theorem pointer_to_encoded_name (name : string) (ls : list string)
    (pre mid post : list byte) (fuel : nat) :
  wellFormedName name ->
  Forall goodLabel ls ->
  len pre < 16384 ->
  (length ls + length (Strings.Split name ".") + 1 < fuel)%nat ->
  parseDomainName fuel
    (pre ++ EncodeDomainName name ++ mid
         ++ concat (map wireLabel ls) ++ pointerTo (len pre) ++ post)
    (len pre + len (EncodeDomainName name) + len mid)
  = Some (Ok (Strings.Join (ls ++ Strings.Split name ".") ".",
              len pre + len (EncodeDomainName name) + len mid
              + len (concat (map wireLabel ls)) + 2)).
Proof.
  intros Hname Hls Hpre Hfuel.
  destruct (pointerTo_reads (len pre)) as (hi & lo & -> & Hp & Htarget);
    [pose proof (len_nonneg pre); lia|].
  remember (EncodeDomainName name) as enc eqn:Eenc.
  remember (concat (map wireLabel ls)) as wires eqn:Ewires.
  remember (pre ++ enc ++ mid ++ wires ++ [hi; lo] ++ post) as data eqn:Edata.
  assert (Hd1 : data = (pre ++ enc ++ mid) ++ wires ++ ([hi; lo] ++ post)).
  { subst data. now rewrite <- !app_assoc. }
  assert (Hd2 : data = ((pre ++ enc ++ mid) ++ wires) ++ hi :: lo :: post).
  { subst data. now rewrite <- !app_assoc. }
  assert (Hoff : len pre + len enc + len mid = len (pre ++ enc ++ mid)).
  { rewrite !len_app. lia. }
  assert (Hlabels :
            parseDomainName_from (length ls + S (fuel - length ls - 1)) data []
              (len (pre ++ enc ++ mid))
            = parseDomainName_from (S (fuel - length ls - 1)) data ([] ++ ls)
                (len (pre ++ enc ++ mid) + len wires)).
  { rewrite Hd1, Ewires. now apply parseDomainName_from_labels. }
  unfold parseDomainName. rewrite Hoff.
  replace fuel with (length ls + S (fuel - length ls - 1))%nat at 1 by lia.
  rewrite Hlabels. cbn [app]. rewrite <- len_app.
  assert (Hhi : index data (len ((pre ++ enc ++ mid) ++ wires)) = Some hi).
  { rewrite Hd2. replace (len ((pre ++ enc ++ mid) ++ wires))
      with (len ((pre ++ enc ++ mid) ++ wires) + 0) by lia.
    now rewrite index_app_r by lia. }
  assert (Hlo : index data (len ((pre ++ enc ++ mid) ++ wires) + 1) = Some lo).
  { rewrite Hd2. now rewrite index_app_r by lia. }
  rewrite (parseDomainName_from_pointer _ data ls _ hi Hhi lo Hp Hlo), Htarget.
  assert (Hcall : parseDomainName_from (fuel - length ls - 1) data [] (len pre)
                  = Some (Ok (name, len pre + len enc))).
  { rewrite Edata, Eenc. apply parseDomainName_wire; [assumption | lia]. }
  rewrite Hcall. unfold finishName.
  destruct (ls ++ Strings.Split name ".") as [|l0 ls0] eqn:E.
  - apply app_eq_nil in E as [_ E]. now apply Split_nonempty in E.
  - reflexivity.
Qed.

(** The buffer [compressed], made with the encoder and [pointerTo]: the
    name [com] at offset 0, then [www] and a pointer to offset 0. *)
Lemma pointer_to_encoded_name_witness :
  parseDomainName 4
    ([] ++ EncodeDomainName "com" ++ []
        ++ concat (map wireLabel ["www"%string]) ++ pointerTo (len (@nil byte)) ++ [])
    (len (@nil byte) + len (EncodeDomainName "com") + len (@nil byte))
  = Some (Ok (Strings.Join (["www"%string] ++ Strings.Split "com" ".") ".",
              len (@nil byte) + len (EncodeDomainName "com") + len (@nil byte)
              + len (concat (map wireLabel ["www"%string])) + 2)).
Proof.
  apply pointer_to_encoded_name.
  - unfold wellFormedName. cbn. repeat constructor; cbn; lia.
  - repeat constructor; cbn; lia.
  - reflexivity.
  - vm_compute. lia.
Defined.

(** ** server.go: the shape of a response *)

Section ResponseShape.

Variable unicodeToLower : string -> string.

Lemma answerQuestion_answersFor (rs : RecordStore) (response response' : DNSMessage)
    (question : DNSQuestion) :
  answerQuestion unicodeToLower rs response question = Ok response' ->
  ID (Header response') = ID (Header response)
  /\ Flags (Header response') = Flags (Header response)
  /\ QDCount (Header response') = QDCount (Header response)
  /\ NSCount (Header response') = NSCount (Header response)
  /\ ARCount (Header response') = ARCount (Header response)
  /\ Questions response' = Questions response
  /\ Answers response' = Answers response ++ answersFor unicodeToLower rs question
  /\ (ANCount (Header response')
      = (ANCount (Header response)
         + len (answersFor unicodeToLower rs question)) mod 65536
      \/ (answersFor unicodeToLower rs question = []
          /\ ANCount (Header response') = ANCount (Header response))).
Proof.
  unfold answerQuestion, answersFor.
  destruct ((q_Type question =? TYPE_A) && (q_Class question =? CLASS_IN)).
  2:{ intros [= <-]. rewrite app_nil_r. repeat (split; [reflexivity|]). now right. }
  destruct (LookupRecord rs (Strings.ToLower unicodeToLower (q_Name question)) TYPE_A)
    as [ipData|].
  2:{ intros [= <-]. rewrite app_nil_r. repeat (split; [reflexivity|]). now right. }
  destruct (len ipData <? 4); [discriminate|].
  intros [= <-]. cbn. repeat (split; [reflexivity|]). now left.
Qed.

Lemma answerQuestions_answersFor (rs : RecordStore) (questions : list DNSQuestion) :
  forall response response',
    ANCount (Header response) = len (Answers response) mod 65536 ->
    answerQuestions unicodeToLower rs questions response = Ok response' ->
    ID (Header response') = ID (Header response)
    /\ Flags (Header response') = Flags (Header response)
    /\ QDCount (Header response') = QDCount (Header response)
    /\ NSCount (Header response') = NSCount (Header response)
    /\ ARCount (Header response') = ARCount (Header response)
    /\ Questions response' = Questions response
    /\ Answers response'
       = Answers response ++ concat (map (answersFor unicodeToLower rs) questions)
    /\ ANCount (Header response') = len (Answers response') mod 65536.
Proof.
  induction questions as [|q qs IH]; intros response response' Hc.
  - cbn. intros [= <-]. rewrite app_nil_r. repeat split; auto.
  - cbn [answerQuestions map concat].
    destruct (answerQuestion unicodeToLower rs response q) as [r| |] eqn:E;
      try discriminate.
    apply answerQuestion_answersFor in E
      as (Hid & Hfl & Hqd & Hns & Har & Hqs & Han & Hcount).
    intros H. apply IH in H as (Hid' & Hfl' & Hqd' & Hns' & Har' & Hqs' & Han' & Hc').
    + rewrite Hid', Hfl', Hqd', Hns', Har', Hqs', Han', Han, Hc'.
      rewrite Han', Han, <- app_assoc. repeat split; auto.
    + rewrite Han. destruct Hcount as [Hcount|[Hnil Hcount]].
      * rewrite Hcount, Hc, len_app. apply Z.add_mod_idemp_l. lia.
      * rewrite Hcount, Hc, Hnil, app_nil_r. reflexivity.
Qed.

(** X14. What a response is made of: the id, the question count and the
    questions of the query; no authority or additional record; for each
    question of type A and class IN whose lower-cased name the table
    resolves, in the order of the questions, one answer with the name as
    the query wrote it, type A, class IN, TTL 300 and the stored data;
    the number of answers modulo 65536 as answer count; and the flags
    0x8183 when that count is zero, 0x8180 otherwise. *)
Theorem createDNSResponse_shape (rs : RecordStore) (query response : DNSMessage) :
  createDNSResponse unicodeToLower rs query = Ok response ->
  ID (Header response) = ID (Header query)
  /\ QDCount (Header response) = QDCount (Header query)
  /\ NSCount (Header response) = 0
  /\ ARCount (Header response) = 0
  /\ Questions response = Questions query
  /\ Answers response = concat (map (answersFor unicodeToLower rs) (Questions query))
  /\ ANCount (Header response) = len (Answers response) mod 65536
  /\ Flags (Header response)
     = (if ANCount (Header response) =? 0 then 0x8183 else 0x8180).
Proof.
  unfold createDNSResponse.
  destruct (answerQuestions unicodeToLower rs (Questions query) (newResponse query))
    as [r| |] eqn:E; try discriminate.
  apply answerQuestions_answersFor in E
    as (Hid & Hfl & Hqd & Hns & Har & Hqs & Han & Hc); [|reflexivity].
  intros [= <-]. cbn in Hid, Hfl, Hqd, Hns, Har, Hqs, Han.
  unfold setRcode. destruct (ANCount (Header r) =? 0) eqn:E0; cbn.
  - rewrite E0, Hfl. repeat split; auto.
  - rewrite E0. repeat split; auto.
Qed.

Lemma map_lowerByte_no_upper (s : string) :
  Strings.existsb_string Strings.isUpper s = false ->
  Strings.map_string Strings.lowerByte s = s.
Proof.
  induction s as [|c s IH]; [reflexivity|].
  cbn [Strings.existsb_string Strings.map_string].
  intros H. apply orb_false_iff in H as [Hc Hs].
  rewrite IH by assumption. unfold Strings.lowerByte. now rewrite Hc.
Qed.

(** On a string of ASCII bytes [strings.ToLower] lowers the letters A
    to Z and nothing else, whatever the Unicode path does. *)
Lemma ToLower_ascii (s : string) :
  Strings.forallb_string Strings.isASCII s = true ->
  Strings.ToLower unicodeToLower s = lowerBytes s.
Proof.
  intros H. unfold Strings.ToLower, lowerBytes. cbv zeta. rewrite H.
  destruct (Strings.existsb_string Strings.isUpper s) eqn:E; cbn [negb]; [reflexivity|].
  symmetry. now apply map_lowerByte_no_upper.
Qed.

(** X15. Lookups ignore the case of the query and answers keep it: a
    type A, class IN question for an ASCII name, in any casing, whose
    lower-cased form the table resolves to an address gets the answer
    with the stored data under the name exactly as the query wrote it,
    and the flags 0x8180. *)
Theorem any_casing_resolves (rs : RecordStore) (h : DNSHeader) (name : string)
    (ipData : list byte) :
  Strings.forallb_string Strings.isASCII name = true ->
  LookupRecord rs (lowerBytes name) TYPE_A = Some ipData ->
  4 <= len ipData ->
  createDNSResponse unicodeToLower rs
    (mkMessage h [mkQuestion name TYPE_A CLASS_IN] [])
  = Ok (mkMessage (mkHeader (ID h) 0x8180 (QDCount h) 1 0 0)
          [mkQuestion name TYPE_A CLASS_IN]
          [mkRR name TYPE_A CLASS_IN DEFAULT_TTL ipData]).
Proof.
  intros Hascii Hl Hlen. unfold createDNSResponse.
  cbn [Questions answerQuestions]. unfold answerQuestion.
  cbn [q_Type q_Class q_Name]. rewrite !Z.eqb_refl. cbn [andb].
  rewrite (ToLower_ascii name Hascii), Hl.
  destruct (Z.ltb_spec (len ipData) 4); [lia|]. reflexivity.
Qed.

End ResponseShape.

(** Scenario A read through the shape of its response. *)
Lemma createDNSResponse_shape_witness :
  concat (map (answersFor lowerBytes NewRecordStore) (Questions queryA))
  = [mkRR "www.example.com" TYPE_A CLASS_IN DEFAULT_TTL (bytes [192; 168; 1; 1])]
  /\ (if 1 =? 0 then 0x8183 else 0x8180) = 0x8180.
Proof.
  assert (E : createDNSResponse lowerBytes NewRecordStore queryA
              = Ok (mkMessage (mkHeader 0x1234 0x8180 1 1 0 0)
                      [mkQuestion "www.example.com" 1 1]
                      [mkRR "www.example.com" TYPE_A CLASS_IN DEFAULT_TTL
                         (bytes [192; 168; 1; 1])]))
    by (vm_compute; reflexivity).
  destruct (createDNSResponse_shape lowerBytes NewRecordStore queryA _ E)
    as (_ & _ & _ & _ & _ & Hanswers & _ & Hflags).
  split; [symmetry; exact Hanswers | symmetry; exact Hflags].
Defined.

Lemma any_casing_resolves_witness :
  createDNSResponse lowerBytes NewRecordStore
    (mkMessage (mkHeader 7 0x0100 1 0 0 0)
       [mkQuestion "WWW.Example.COM" TYPE_A CLASS_IN] [])
  = Ok (mkMessage (mkHeader 7 0x8180 1 1 0 0)
          [mkQuestion "WWW.Example.COM" TYPE_A CLASS_IN]
          [mkRR "WWW.Example.COM" TYPE_A CLASS_IN DEFAULT_TTL (bytes [192; 168; 1; 1])]).
Proof.
  apply (any_casing_resolves lowerBytes NewRecordStore (mkHeader 7 0x0100 1 0 0 0)
           "WWW.Example.COM" (bytes [192; 168; 1; 1])).
  - reflexivity.
  - vm_compute. reflexivity.
  - vm_compute. discriminate.
Defined.

(** ** server.go: the reply to a datagram *)

Lemma to_byte_u8 (b : byte) : to_byte (u8 b) = b.
Proof.
  unfold to_byte. pose proof (u8_range b). rewrite Z.mod_small by lia.
  unfold u8. rewrite N2Z.id. now rewrite Byte.of_to_N.
Qed.

Lemma to_byte_mod (x : Z) : to_byte (x mod 256) = to_byte x.
Proof. unfold to_byte. now rewrite Z.mod_mod by lia. Qed.

(** A 16-bit field read from two bytes is written back as those bytes. *)
Lemma put16_be16 (data : list byte) (i v : Z) :
  be16 data i = Some v ->
  exists hi lo,
    index data i = Some hi /\ index data (i + 1) = Some lo /\ put16 v = [hi; lo].
Proof.
  unfold be16. destruct (index data i) as [hi|]; [|discriminate].
  destruct (index data (i + 1)) as [lo|]; [|discriminate].
  intros [= <-]. exists hi, lo. split; [reflexivity|]. split; [reflexivity|].
  pose proof (u8_range hi). pose proof (u8_range lo).
  assert (E : Z.land (Z.shiftl (u8 hi) 8) (u8 lo) = 0).
  { apply Z.bits_inj'. intros n Hn. rewrite Z.land_spec, Z.bits_0.
    destruct (Z.ltb_spec n 8).
    - rewrite Z.shiftl_spec_low by lia. reflexivity.
    - rewrite <- (Z.mod_small (u8 lo) (2 ^ 8)) by (change (2 ^ 8) with 256; lia).
      rewrite Z.mod_pow2_bits_high by lia. apply andb_false_r. }
  pose proof (Z.add_lor_land (Z.shiftl (u8 hi) 8) (u8 lo)) as Hadd.
  rewrite E, Z.add_0_r, Z.shiftl_mul_pow2 in Hadd by lia.
  change (2 ^ 8) with 256 in Hadd.
  unfold put16. rewrite Z.shiftl_mul_pow2 by lia. change (2 ^ 8) with 256.
  rewrite Hadd. f_equal; [|f_equal].
  - rewrite Z.shiftr_div_pow2 by lia. change (2 ^ 8) with 256.
    rewrite Z.div_add_l by lia. rewrite (Z.div_small (u8 lo)) by lia.
    rewrite Z.add_0_r. apply to_byte_u8.
  - rewrite <- to_byte_mod, Z.add_comm, Z.mod_add by lia.
    rewrite to_byte_mod. apply to_byte_u8.
Qed.

Lemma ParseDNSMessage_header (fuel : nat) (data : list byte) (msg : DNSMessage) :
  ParseDNSMessage fuel data = Some (Ok msg) ->
  12 <= len data
  /\ be16 data 0 = Some (ID (Header msg))
  /\ be16 data 4 = Some (QDCount (Header msg)).
Proof.
  unfold ParseDNSMessage, MIN_MESSAGE_SIZE.
  destruct (Z.ltb_spec (len data) 12); [discriminate|].
  destruct (be16 data 0) as [id|]; [|discriminate].
  destruct (be16 data 2) as [fl|]; [|discriminate].
  destruct (be16 data 4) as [qd|]; [|discriminate].
  destruct (be16 data 6) as [an|]; [|discriminate].
  destruct (be16 data 8) as [ns|]; [|discriminate].
  destruct (be16 data 10) as [ar|]; [|discriminate].
  destruct (parseQuestionList fuel (Z.to_nat qd) data 12 []) as [[qs|e|]|];
    try discriminate.
  intros [= <-]. cbn. auto.
Qed.

Section Reply.

Variable unicodeToLower : string -> string.

Lemma createDNSResponse_header (rs : RecordStore) (query response : DNSMessage) :
  createDNSResponse unicodeToLower rs query = Ok response ->
  ID (Header response) = ID (Header query)
  /\ QDCount (Header response) = QDCount (Header query)
  /\ NSCount (Header response) = 0
  /\ ARCount (Header response) = 0
  /\ (Flags (Header response) = 0x8180 \/ Flags (Header response) = 0x8183).
Proof.
  unfold createDNSResponse.
  destruct (answerQuestions unicodeToLower rs (Questions query) (newResponse query))
    as [r| |] eqn:E; try discriminate.
  apply answerQuestions_answersFor in E
    as (Hid & Hfl & Hqd & Hns & Har & _); [|reflexivity].
  intros [= <-]. cbn in Hid, Hfl, Hqd, Hns, Har.
  unfold setRcode. destruct (ANCount (Header r) =? 0); cbn.
  - rewrite Hfl. repeat split; auto.
  - repeat split; auto.
Qed.

(** X16. Every reply the server writes starts with the two id bytes and
    carries the two question-count bytes of the datagram it answers; its
    flag bytes are 0x81 and 0x80 or 0x83, and its authority and
    additional counts are zero. *)
Theorem reply_header (fuel : nat) (rs : RecordStore) (data reply : list byte) :
  handleDNSQuery unicodeToLower fuel rs data = Some (Ok (Some reply)) ->
  12 <= len data
  /\ index reply 0 = index data 0
  /\ index reply 1 = index data 1
  /\ index reply 2 = Some x81
  /\ (index reply 3 = Some x80 \/ index reply 3 = Some x83)
  /\ index reply 4 = index data 4
  /\ index reply 5 = index data 5
  /\ index reply 8 = Some x00 /\ index reply 9 = Some x00
  /\ index reply 10 = Some x00 /\ index reply 11 = Some x00.
Proof.
  unfold handleDNSQuery. destruct (len data <? MIN_MESSAGE_SIZE); [discriminate|].
  destruct (ParseDNSMessage fuel data) as [[msg|e|]|] eqn:Ep; try discriminate.
  destruct (createDNSResponse unicodeToLower rs msg) as [response|e|] eqn:Ec;
    try discriminate.
  intros [= <-].
  apply ParseDNSMessage_header in Ep as (Hlen & Hid & Hqd).
  apply createDNSResponse_header in Ec as (Eid & Eqd & Ens & Ear & Efl).
  destruct (EncodeDNSMessage_shape response) as [tail ->].
  unfold encodeHeader. rewrite Eid, Eqd, Ens, Ear.
  apply put16_be16 in Hid as (i0 & i1 & Hi0 & Hi1 & ->).
  apply put16_be16 in Hqd as (q0 & q1 & Hq0 & Hq1 & ->).
  change (0 + 1) with 1 in Hi1. change (4 + 1) with 5 in Hq1.
  rewrite Hi0, Hi1, Hq0, Hq1.
  split; [assumption|].
  destruct Efl as [-> | ->]; cbn; repeat split; auto.
Qed.

(** X17. On a table whose address records hold an address the server
    replies to exactly the datagrams that decode: a datagram that decodes
    gets the encoded response, a datagram that fails to decode (under 12
    bytes included) gets nothing, and the handler does not panic. *)
Theorem handler_replies_iff_decodes (fuel : nat) (rs : RecordStore) (data : list byte) :
  holdsAddresses rs ->
  match ParseDNSMessage fuel data with
  | Some (Ok msg) =>
      exists response,
        createDNSResponse unicodeToLower rs msg = Ok response
        /\ handleDNSQuery unicodeToLower fuel rs data
           = Some (Ok (Some (EncodeDNSMessage response)))
  | Some (Err _) => handleDNSQuery unicodeToLower fuel rs data = Some (Ok None)
  | Some Panic => False
  | None => handleDNSQuery unicodeToLower fuel rs data = None
  end.
Proof.
  intros Hrs. unfold handleDNSQuery.
  pose proof (ParseDNSMessage_never_panics_aux fuel data) as Hsafe.
  destruct (ParseDNSMessage fuel data) as [[msg|e|]|] eqn:Ep.
  - apply ParseDNSMessage_header in Ep as (Hlen & _ & _).
    unfold MIN_MESSAGE_SIZE. destruct (Z.ltb_spec (len data) 12); [lia|].
    unfold createDNSResponse.
    destruct (answerQuestions_total unicodeToLower rs Hrs (Questions msg) (newResponse msg))
      as [r ->].
    eauto.
  - destruct (len data <? MIN_MESSAGE_SIZE); reflexivity.
  - now apply Hsafe.
  - unfold ParseDNSMessage in Ep.
    destruct (len data <? MIN_MESSAGE_SIZE); [discriminate | reflexivity].
Qed.

End Reply.

Lemma reply_header_witness :
  index (EncodeDNSMessage (mkMessage (mkHeader 0x1234 0x8180 1 1 0 0)
           [mkQuestion "www.example.com" 1 1]
           [mkRR "www.example.com" 1 1 300 (bytes [192; 168; 1; 1])])) 0
  = Some x12.
Proof.
  set (data := bytes [0x12; 0x34; 0x01; 0x00; 0x00; 0x01; 0x00; 0x00; 0x00; 0x00; 0x00; 0x00;
            3; 119; 119; 119; 7; 101; 120; 97; 109; 112; 108; 101; 3; 99; 111; 109; 0;
            0x00; 0x01; 0x00; 0x01]).
  assert (E : handleDNSQuery lowerBytes 4 NewRecordStore data
              = Some (Ok (Some (EncodeDNSMessage (mkMessage (mkHeader 0x1234 0x8180 1 1 0 0)
                   [mkQuestion "www.example.com" 1 1]
                   [mkRR "www.example.com" 1 1 300 (bytes [192; 168; 1; 1])])))))
    by (vm_compute; reflexivity).
  destruct (reply_header lowerBytes 4 NewRecordStore data _ E) as (_ & H0 & _).
  exact H0.
Defined.

Lemma handler_replies_iff_decodes_witness :
  exists response,
    createDNSResponse lowerBytes NewRecordStore queryA = Ok response
    /\ handleDNSQuery lowerBytes 4 NewRecordStore
         (bytes [0x12; 0x34; 0x01; 0x00; 0x00; 0x01; 0x00; 0x00; 0x00; 0x00; 0x00; 0x00;
            3; 119; 119; 119; 7; 101; 120; 97; 109; 112; 108; 101; 3; 99; 111; 109; 0;
            0x00; 0x01; 0x00; 0x01])
       = Some (Ok (Some (EncodeDNSMessage response))).
Proof.
  pose proof (handler_replies_iff_decodes lowerBytes 4 NewRecordStore
                (bytes [0x12; 0x34; 0x01; 0x00; 0x00; 0x01; 0x00; 0x00; 0x00; 0x00; 0x00; 0x00;
                   3; 119; 119; 119; 7; 101; 120; 97; 109; 112; 108; 101; 3; 99; 111; 109; 0;
                   0x00; 0x01; 0x00; 0x01])
                NewRecordStore_holdsAddresses) as H.
  rewrite queryA_decoded in H. exact H.
Defined.

(** ** http-load-balancer: the choice of a backend *)

(** The scan of [GetNextPeer], entered at its [k0]-th step with the
    backends of the steps before it all down. *)
Lemma scanPeers_spec (lb : LB.LoadBalancer) (next : Z) :
  0 <= next < len (LB.backends lb) ->
  forall (m : nat) (k0 : Z),
    0 <= k0 ->
    k0 + Z.of_nat m = len (LB.backends lb) ->
    (forall j, 0 <= j < k0 ->
       LB.aliveAt lb ((next + j) mod len (LB.backends lb)) = false) ->
    (exists k,
        k0 <= k < len (LB.backends lb)
        /\ LB.aliveAt lb ((next + k) mod len (LB.backends lb)) = true
        /\ (forall j, 0 <= j < k ->
              LB.aliveAt lb ((next + j) mod len (LB.backends lb)) = false)
        /\ LB.scanPeers lb next (next + k0) m
           = Ok (Some ((next + k) mod len (LB.backends lb)),
                 if k =? 0 then lb
                 else LB.mkLB (LB.backends lb) ((next + k) mod len (LB.backends lb))))
    \/ ((forall j, 0 <= j < len (LB.backends lb) ->
           LB.aliveAt lb ((next + j) mod len (LB.backends lb)) = false)
        /\ LB.scanPeers lb next (next + k0) m = Ok (None, lb)).
Proof.
  intros Hnext. set (n := len (LB.backends lb)) in *.
  induction m as [|m IH]; intros k0 Hk0 Hsum Hdead.
  - right. split; [|reflexivity]. intros j Hj. apply Hdead. lia.
  - cbn [LB.scanPeers]. fold n.
    assert (Hidx : 0 <= (next + k0) mod n < n) by (apply Z.mod_pos_bound; lia).
    destruct (LB.backends lb !! Z.to_nat ((next + k0) mod n)) as [b|] eqn:Eb.
    2:{ apply lookup_ge_None in Eb. unfold n, len in Hidx, Eb. lia. }
    destruct (LB.Alive b) eqn:Ea.
    + left. exists k0. split; [lia|]. split; [unfold LB.aliveAt; now rewrite Eb|].
      split; [assumption|]. do 2 f_equal.
      destruct (Z.eqb_spec (next + k0) next); destruct (Z.eqb_spec k0 0);
        try reflexivity; lia.
    + destruct (IH (k0 + 1)) as [(k & Hk & Hal & Hd & E)|[Hd E]]; [lia | lia | | |].
      * intros j Hj. destruct (Z.eq_dec j k0) as [->|Hne].
        -- unfold LB.aliveAt. now rewrite Eb.
        -- apply Hdead. lia.
      * left. exists k. split; [lia|]. split; [assumption|]. split; [assumption|].
        now rewrite <- Z.add_assoc.
      * right. split; [assumption|]. now rewrite <- Z.add_assoc.
Qed.

Lemma GetNextPeer_spec (lb : LB.LoadBalancer) :
  LB.backends lb <> [] ->
  let n := len (LB.backends lb) in
  let c := (LB.current lb + 1) mod 2 ^ 64 in
  (exists k,
      0 <= k < n
      /\ LB.aliveAt lb ((c mod n + k) mod n) = true
      /\ (forall j, 0 <= j < k -> LB.aliveAt lb ((c mod n + j) mod n) = false)
      /\ LB.GetNextPeer lb
         = Ok (Some ((c mod n + k) mod n),
               LB.mkLB (LB.backends lb) (if k =? 0 then c else (c mod n + k) mod n)))
  \/ ((forall b, In b (LB.backends lb) -> LB.Alive b = false)
      /\ LB.GetNextPeer lb = Ok (None, LB.mkLB (LB.backends lb) c)).
Proof.
  intros Hne n c.
  assert (Hn : 0 < n).
  { unfold n, len. destruct (LB.backends lb); [congruence | cbn [length]; lia]. }
  unfold LB.GetNextPeer, LB.NextIndex. cbv zeta. fold c. fold n.
  destruct (Z.eqb_spec n 0); [lia|]. cbn [LB.backends].
  assert (Hnext : 0 <= c mod n < n) by (apply Z.mod_pos_bound; lia).
  pose proof (scanPeers_spec (LB.mkLB (LB.backends lb) c) (c mod n)) as Hscan.
  cbn [LB.backends] in Hscan. fold n in Hscan.
  destruct (Hscan Hnext (length (LB.backends lb)) 0) as [(k & Hk & Hal & Hd & E)|[Hd E]];
    [lia | unfold n, len; lia | intros j Hj; lia | |].
  - left. exists k. rewrite Z.add_0_r in E. rewrite E.
    repeat split; try lia; try assumption.
    destruct (k =? 0); reflexivity.
  - right. rewrite Z.add_0_r in E. rewrite E. split; [|reflexivity].
    intros b Hb. apply list_elem_of_In, list_elem_of_lookup in Hb as [t Ht].
    assert (Hlt : (t < length (LB.backends lb))%nat) by now apply lookup_lt_Some in Ht.
    specialize (Hd ((Z.of_nat t - c mod n) mod n)).
    rewrite Z.add_mod_idemp_r in Hd by lia.
    replace (c mod n + (Z.of_nat t - c mod n)) with (Z.of_nat t) in Hd by lia.
    rewrite (Z.mod_small (Z.of_nat t)) in Hd by (unfold n, len; lia).
    unfold LB.aliveAt in Hd. cbn [LB.backends] in Hd.
    rewrite Nat2Z.id, Ht in Hd.
    apply Hd. apply Z.mod_pos_bound. lia.
Qed.

(** X18. With at least one backend registered, [GetNextPeer] returns the
    first backend that is alive in the cyclic order that starts at the
    incremented counter modulo the number of backends, and returns nil
    exactly when no backend is alive; the counter is left at its
    incremented value, or set to the index returned when backends were
    skipped. *)
Theorem GetNextPeer_first_alive (lb : LB.LoadBalancer) :
  LB.backends lb <> [] ->
  exists peer lb',
    LB.GetNextPeer lb = Ok (peer, lb')
    /\ LB.backends lb' = LB.backends lb
    /\ match peer with
       | Some idx =>
           exists k,
             0 <= k < len (LB.backends lb)
             /\ idx = (((LB.current lb + 1) mod 2 ^ 64) mod len (LB.backends lb) + k)
                      mod len (LB.backends lb)
             /\ LB.aliveAt lb idx = true
             /\ (forall j, 0 <= j < k ->
                   LB.aliveAt lb
                     ((((LB.current lb + 1) mod 2 ^ 64) mod len (LB.backends lb) + j)
                      mod len (LB.backends lb)) = false)
             /\ LB.current lb'
                = (if k =? 0 then (LB.current lb + 1) mod 2 ^ 64 else idx)
       | None =>
           (forall b, In b (LB.backends lb) -> LB.Alive b = false)
           /\ LB.current lb' = (LB.current lb + 1) mod 2 ^ 64
       end.
Proof.
  intros Hne.
  destruct (GetNextPeer_spec lb Hne) as [(k & Hk & Hal & Hd & E)|[Hd E]].
  - eexists _, _. split; [exact E|]. split; [reflexivity|].
    exists k. repeat split; try lia; assumption.
  - eexists _, _. split; [exact E|]. split; [reflexivity|]. split; [assumption | reflexivity].
Qed.

Lemma GetNextPeer_first_alive_witness :
  exists peer lb',
    LB.GetNextPeer (LB.mkLB [LB.mkBackend "http://localhost:3001" false;
                             LB.mkBackend "http://localhost:3002" true] 1)
    = Ok (peer, lb')
    /\ peer = Some 1.
Proof.
  destruct (GetNextPeer_first_alive
              (LB.mkLB [LB.mkBackend "http://localhost:3001" false;
                        LB.mkBackend "http://localhost:3002" true] 1))
    as (peer & lb' & E & _); [discriminate|].
  exists peer, lb'. split; [exact E|].
  vm_compute in E. congruence.
Defined.

Lemma aliveAt_all (lb : LB.LoadBalancer) (idx : Z) :
  (forall b, In b (LB.backends lb) -> LB.Alive b = true) ->
  0 <= idx < len (LB.backends lb) ->
  LB.aliveAt lb idx = true.
Proof.
  intros Hall Hidx. unfold LB.aliveAt.
  destruct (LB.backends lb !! Z.to_nat idx) as [b|] eqn:E.
  - apply Hall. apply list_elem_of_In, list_elem_of_lookup. eauto.
  - apply lookup_ge_None in E. unfold len in Hidx. lia.
Qed.

Lemma GetNextPeer_all_alive (lb : LB.LoadBalancer) :
  LB.backends lb <> [] ->
  (forall b, In b (LB.backends lb) -> LB.Alive b = true) ->
  0 <= LB.current lb -> LB.current lb + 1 < 2 ^ 64 ->
  LB.GetNextPeer lb
  = Ok (Some ((LB.current lb + 1) mod len (LB.backends lb)),
        LB.mkLB (LB.backends lb) (LB.current lb + 1)).
Proof.
  intros Hne Hall H0 Hc.
  assert (Hn : 0 < len (LB.backends lb)).
  { unfold len. destruct (LB.backends lb); [congruence | cbn [length]; lia]. }
  destruct (GetNextPeer_spec lb Hne) as [(k & Hk & Hal & Hd & E)|[Hd E]].
  - rewrite (Z.mod_small (LB.current lb + 1)) in * by lia.
    destruct (Z.eq_dec k 0) as [->|Hk0].
    + rewrite Z.add_0_r, Z.mod_mod in E by lia. exact E.
    + specialize (Hd 0 ltac:(lia)).
      rewrite aliveAt_all in Hd; [discriminate | assumption |].
      apply Z.mod_pos_bound. lia.
  - destruct (LB.backends lb) as [|b bs]; [congruence|].
    pose proof (Hall b (or_introl eq_refl)) as H1.
    pose proof (Hd b (or_introl eq_refl)) as H2. congruence.
Qed.

(** X19. Round robin: while every backend is alive and the 64-bit
    counter does not wrap, [k] requests in a row are given the backends
    [(c + 1) mod n], [(c + 2) mod n], ..., [(c + k) mod n], where [c] is
    the counter before the first and [n] the number of backends, and the
    counter ends at [c + k]. *)
Theorem round_robin (k : nat) :
  forall lb : LB.LoadBalancer,
    LB.backends lb <> [] ->
    (forall b, In b (LB.backends lb) -> LB.Alive b = true) ->
    0 <= LB.current lb ->
    LB.current lb + Z.of_nat k < 2 ^ 64 ->
    LB.nextPeers k lb
    = Ok (map (fun j => Some ((LB.current lb + 1 + Z.of_nat j) mod len (LB.backends lb)))
              (seq 0 k),
          LB.mkLB (LB.backends lb) (LB.current lb + Z.of_nat k)).
Proof.
  induction k as [|k IH]; intros lb Hne Hall H0 Hc.
  - cbn. rewrite Z.add_0_r. now destruct lb.
  - cbn [LB.nextPeers]. rewrite GetNextPeer_all_alive by (try assumption; lia).
    rewrite IH; cbn [LB.backends LB.current]; try assumption; try lia.
    cbn [seq map]. rewrite <- seq_shift, map_map.
    do 2 f_equal.
    + f_equal.
      * change (Z.of_nat 0) with 0. now rewrite Z.add_0_r.
      * apply map_ext. intros j. do 2 f_equal. lia.
    + f_equal. lia.
Qed.

(** Three backends, all alive, counter at 0: six requests go to the
    backends 1, 2, 0, 1, 2, 0. *)
Lemma round_robin_witness :
  LB.nextPeers 6
    (LB.mkLB [LB.mkBackend "a" true; LB.mkBackend "b" true; LB.mkBackend "c" true] 0)
  = Ok ([Some 1; Some 2; Some 0; Some 1; Some 2; Some 0],
        LB.mkLB [LB.mkBackend "a" true; LB.mkBackend "b" true; LB.mkBackend "c" true] 6).
Proof.
  apply (round_robin 6
           (LB.mkLB [LB.mkBackend "a" true; LB.mkBackend "b" true; LB.mkBackend "c" true] 0)).
  - discriminate.
  - cbn. intros b [<-|[<-|[<-|[]]]]; reflexivity.
  - cbn. lia.
  - cbn. lia.
Defined.

(** X20. [ServeHTTP] never hands a request to a backend: when a backend
    is alive the client gets the 503 answer, and when none is alive, or
    none is registered, the handler panics. *)
Theorem ServeHTTP_never_proxies (lb : LB.LoadBalancer) :
  match LB.ServeHTTP lb with
  | Ok (LB.Unavailable, lb') =>
      exists b, In b (LB.backends lb) /\ LB.Alive b = true
  | Ok (LB.Proxied _, _) => False
  | Err _ => False
  | Panic => forall b, In b (LB.backends lb) -> LB.Alive b = false
  end.
Proof.
  unfold LB.ServeHTTP.
  destruct (LB.backends lb) as [|b0 bs] eqn:Eb.
  - unfold LB.GetNextPeer, LB.NextIndex. rewrite Eb. cbn. intros b [].
  - assert (Hne : LB.backends lb <> []) by congruence.
    destruct (GetNextPeer_spec lb Hne) as [(k & Hk & Hal & Hd & E)|[Hd E]].
    + rewrite E. unfold LB.aliveAt in Hal.
      destruct (LB.backends lb !! _) as [b|] eqn:El; [|discriminate].
      exists b. split; [|assumption].
      rewrite <- Eb. apply list_elem_of_In, list_elem_of_lookup. eauto.
    + rewrite E. now rewrite <- Eb.
Qed.

(** X21. A backend marked down is not chosen: after [SetAlive(false)] on
    a backend, [GetNextPeer] does not return it. *)
Theorem down_backend_not_chosen (lb : LB.LoadBalancer) (idx : nat) (lb' : LB.LoadBalancer) :
  (idx < length (LB.backends lb))%nat ->
  LB.GetNextPeer (LB.SetAlive lb idx false) <> Ok (Some (Z.of_nat idx), lb').
Proof.
  intros Hidx H.
  destruct (LB.backends lb !! idx) as [b|] eqn:Eb.
  2:{ apply lookup_ge_None in Eb. lia. }
  assert (Hbs : LB.backends (LB.SetAlive lb idx false)
                = <[idx := LB.mkBackend (LB.URL b) false]> (LB.backends lb)).
  { unfold LB.SetAlive. now rewrite Eb. }
  assert (Hne : LB.backends (LB.SetAlive lb idx false) <> []).
  { rewrite Hbs. intros E. apply (f_equal length) in E.
    rewrite length_insert in E. cbn in E. lia. }
  destruct (GetNextPeer_spec _ Hne) as [(k & Hk & Hal & Hd & E)|[Hd E]];
    rewrite E in H; [|discriminate].
  injection H as Hi _. rewrite Hi in Hal.
  unfold LB.aliveAt in Hal. rewrite Hbs, Nat2Z.id in Hal.
  rewrite list_lookup_insert_eq in Hal by assumption. discriminate.
Qed.

Lemma down_backend_not_chosen_witness :
  LB.GetNextPeer
    (LB.SetAlive (LB.mkLB [LB.mkBackend "a" true; LB.mkBackend "b" true] 0) 1 false)
  <> Ok (Some (Z.of_nat 1),
         LB.mkLB [LB.mkBackend "a" true; LB.mkBackend "b" false] 0).
Proof.
  apply (down_backend_not_chosen
           (LB.mkLB [LB.mkBackend "a" true; LB.mkBackend "b" true] 0) 1).
  cbn. lia.
Defined.

(** ** records.go: a missing record, a record added twice *)

(** X22. Removing a record the table does not hold changes nothing. *)
Theorem RemoveRecord_missing (rs : RecordStore) (domain : string) (ty : Z) :
  noEmptyDomain rs ->
  LookupRecord rs domain ty = None ->
  RemoveRecord rs domain ty = rs.
Proof.
  intros Hrs Hnone. destruct rs as [recs]. unfold LookupRecord in Hnone.
  unfold RemoveRecord. cbn [records] in *.
  destruct (recs !! domain) as [m|] eqn:E; [|reflexivity].
  rewrite delete_id by assumption.
  destruct (decide (size m = 0%nat)) as [Hs|Hs].
  - apply map_size_empty_iff in Hs. now apply (Hrs domain m) in Hs.
  - f_equal. now apply insert_id.
Qed.

Lemma RemoveRecord_missing_witness :
  RemoveRecord NewRecordStore "www.example.com" TYPE_AAAA = NewRecordStore.
Proof.
  apply (RemoveRecord_missing NewRecordStore "www.example.com" TYPE_AAAA).
  - exact NewRecordStore_noEmptyDomain.
  - vm_compute. reflexivity.
Defined.

(** X23. A record added under a domain and type that hold one already
    replaces it: adding twice gives the table that the second addition
    alone gives. *)
Theorem AddRecord_overwrites (rs : RecordStore) (domain : string) (ty : Z)
    (data data' : list byte) :
  AddRecord (AddRecord rs domain ty data) domain ty data'
  = AddRecord rs domain ty data'.
Proof.
  unfold AddRecord. cbn [records].
  set (made := match records rs !! domain with
               | Some _ => records rs
               | None => <[domain:=∅]> (records rs)
               end).
  rewrite !lookup_insert_eq. change (default ∅ (Some ?m)) with m.
  f_equal. now rewrite !insert_insert_eq.
Qed.

(** ** parser.go: what a decoded message looks like *)

(** X24. Whatever the datagram, the message it decodes to has exactly as
    many questions as its header announces and no answer, also when the
    header announces answers, and its six header fields are 16-bit
    values. *)
Theorem decoded_message_shape (fuel : nat) (data : list byte) (msg : DNSMessage) :
  ParseDNSMessage fuel data = Some (Ok msg) ->
  len (Questions msg) = QDCount (Header msg)
  /\ Answers msg = []
  /\ wellFormedHeader (Header msg).
Proof.
  intros H. destruct (ParseDNSMessage_questions fuel data msg H) as (Hq & _ & Ha).
  split; [assumption|]. split; [assumption|].
  unfold ParseDNSMessage in H. destruct (len data <? MIN_MESSAGE_SIZE); [discriminate|].
  destruct (be16 data 0) as [id|] eqn:E0; [|discriminate].
  destruct (be16 data 2) as [fl|] eqn:E2; [|discriminate].
  destruct (be16 data 4) as [qd|] eqn:E4; [|discriminate].
  destruct (be16 data 6) as [an|] eqn:E6; [|discriminate].
  destruct (be16 data 8) as [ns|] eqn:E8; [|discriminate].
  destruct (be16 data 10) as [ar|] eqn:E10; [|discriminate].
  destruct (parseQuestionList fuel (Z.to_nat qd) data 12 []) as [[qs|e|]|];
    try discriminate.
  injection H as <-. unfold wellFormedHeader, u16. cbn.
  apply be16_range in E0, E2, E4, E6, E8, E10. tauto.
Qed.

(** The encoded response of the encoder's test announces one answer and
    decodes to a message without answers. *)
Lemma decoded_message_shape_witness :
  len (Questions (mkMessage (Header responseTest) (Questions responseTest) []))
  = QDCount (Header (mkMessage (Header responseTest) (Questions responseTest) []))
  /\ Answers (mkMessage (Header responseTest) (Questions responseTest) []) = []
  /\ wellFormedHeader (Header (mkMessage (Header responseTest) (Questions responseTest) [])).
Proof.
  apply (decoded_message_shape 3 (EncodeDNSMessage responseTest)).
  vm_compute. reflexivity.
Defined.
